(** * Presence registry and call-signalling relay of the chat back end

    The messages service (class [UserConnections] and the socket handlers
    registered in [io.on('connection')]) and the users service (the
    [onlineUsers] map and its handlers) are embedded as pure functions that
    thread the registry explicitly and return the list of events they emit,
    oldest first.  An uncaught [TypeError] (a property read on a [null] or
    [undefined] payload, or the interpolation in a template literal of a
    value that cannot be converted to a string) is the [None] of the option
    monad. *)

From Stdlib Require Import ZArith Strings.String Strings.Ascii Lists.List.
From Stdlib Require Import Numbers.DecimalString Numbers.DecimalPos Numbers.DecimalZ.
From stdpp Require Import gmap strings list fin_maps.

#[local] Set Warnings "-register-all".

(** ** JavaScript values carried by socket payloads *)

(** A payload is what socket.io decoded from the wire.  Numbers are the
    integer-valued ones (principal ids are integer primary keys, timestamps
    are integer milliseconds). *)
Inductive JsVal : Type :=
  | VUndef
  | VNull
  | VBool (b : bool)
  | VNum (n : Z)
  | VStr (s : string)
  | VArr (items : list JsVal)
  | VObj (fields : list (string * JsVal)).

(** [if (v)] and the left operand of [||]. *)
Definition truthy (v : JsVal) : bool :=
  match v with
  | VUndef | VNull => false
  | VBool b => b
  | VNum n => negb (n =? 0)%Z
  | VStr s => negb (String.eqb s "")
  | VArr _ | VObj _ => true
  end.

(** [a || b] *)
Definition js_or (a b : JsVal) : JsVal := if truthy a then a else b.

(** Decimal rendering of an integer, as a template literal does it (ids and
    millisecond timestamps are far below the range where JavaScript switches
    to exponent notation). *)
Definition Z_to_string (n : Z) : string := NilEmpty.string_of_int (Z.to_int n).

(** [`${v}`]: arrays join their elements with a comma, [null] and
    [undefined] elements rendering as the empty string. *)
Fixpoint to_string (v : JsVal) : string :=
  match v with
  | VUndef => "undefined"
  | VNull => "null"
  | VBool true => "true"
  | VBool false => "false"
  | VNum n => Z_to_string n
  | VStr s => s
  | VArr items =>
      (fix join (l : list JsVal) : string :=
         match l with
         | [] => ""
         | x :: rest =>
             let e := match x with VUndef | VNull => "" | _ => to_string x end in
             match rest with
             | [] => e
             | _ :: _ => e +:+ "," +:+ join rest
             end
         end) items
  | VObj _ => "[object Object]"
  end.

(** Whether [`${v}`] throws.  A decoded payload holds no function, so an
    object that has an own [toString] property has one that cannot be
    called, and the inherited [valueOf] returns the object itself:
    converting it raises a [TypeError].  An array converts its elements (but
    for [null] and [undefined]) when it is joined, so it throws when one of
    them does. *)
Fixpoint uncoercible (v : JsVal) : bool :=
  match v with
  | VObj fields => existsb (λ kv, String.eqb (fst kv) "toString") fields
  | VArr items =>
      (fix any (l : list JsVal) : bool :=
         match l with
         | [] => false
         | x :: rest => uncoercible x || any rest
         end) items
  | VUndef | VNull | VBool _ | VNum _ | VStr _ => false
  end.

(** A value interpolated in a template literal: its rendering, or [None]
    for the [TypeError]. *)
Definition template (v : JsVal) : option string :=
  if uncoercible v then None else Some (to_string v).

Arguments template : simpl never.

(** [console.log(format, arg)] with a string first: [util.format] scans
    [format] for the first placeholder that consumes [arg].  A percent sign
    followed by any other character (another percent sign included) is
    skipped together with that character, and one at the very end is
    ignored. *)
Definition consumes_argument (c : ascii) : bool :=
  existsb (Ascii.eqb c) ["s"; "j"; "d"; "O"; "o"; "i"; "f"; "c"]%char.

Fixpoint first_placeholder (format : string) : option ascii :=
  match format with
  | EmptyString => None
  | String c rest =>
      if Ascii.eqb c "%" then
        match rest with
        | EmptyString => None
        | String n rest' =>
            if consumes_argument n then Some n else first_placeholder rest'
        end
      else first_placeholder rest
  end.

(** [%d], [%i] and [%f] convert the argument with [Number], [parseInt] and
    [parseFloat], which throw on what a template literal throws on; the
    other placeholders inspect or stringify it, which does not throw. *)
Definition log_with_arg_throws (format : string) (arg : JsVal) : bool :=
  match first_placeholder format with
  | Some n => existsb (Ascii.eqb n) ["d"; "i"; "f"]%char && uncoercible arg
  | None => false
  end.

(** Own property of an object literal; [undefined] when absent. *)
Fixpoint field (k : string) (fs : list (string * JsVal)) : JsVal :=
  match fs with
  | [] => VUndef
  | (k', v) :: rest => if String.eqb k k' then v else field k rest
  end.

(** [data.k].  Reading a property of [null] or [undefined] throws; the
    property names the handlers read exist on no primitive wrapper and on no
    array, so every other value answers [undefined]. *)
Definition get_prop (data : JsVal) (k : string) : option JsVal :=
  match data with
  | VUndef | VNull => None
  | VObj fs => Some (field k fs)
  | VBool _ | VNum _ | VStr _ | VArr _ => Some VUndef
  end.

(** ** Insertion-ordered [Map] with string keys (the per-connection call set)

    Entries are kept in insertion order, which is the order [forEach]
    visits them.  A lookup by a value that is not a string finds nothing
    (SameValueZero never identifies a string key with another type). *)
Module JsMap.
Section Ops.
Context {V : Type}.

Fixpoint get (k : string) (m : list (string * V)) : option V :=
  match m with
  | [] => None
  | (k', v) :: rest => if String.eqb k k' then Some v else get k rest
  end.

(** [m.set(k, v)]: an existing key keeps its position, a new one goes last. *)
Fixpoint set (k : string) (v : V) (m : list (string * V)) : list (string * V) :=
  match m with
  | [] => [(k, v)]
  | (k', v') :: rest =>
      if String.eqb k k' then (k', v) :: rest else (k', v') :: set k v rest
  end.

(** [m.delete(k)] *)
Fixpoint delete (k : string) (m : list (string * V)) : list (string * V) :=
  match m with
  | [] => []
  | (k', v') :: rest =>
      if String.eqb k k' then delete k rest else (k', v') :: delete k rest
  end.

Definition get_val (k : JsVal) (m : list (string * V)) : option V :=
  match k with
  | VStr s => get s m
  | _ => None
  end.

Definition delete_val (k : JsVal) (m : list (string * V)) : list (string * V) :=
  match k with
  | VStr s => delete s m
  | _ => m
  end.
End Ops.
End JsMap.

(** ** Messages service: events, connections and the registry class *)

Definition SocketId := nat.

(** Events the messages service emits on a socket, with their payload. *)
Inductive Emit : Type :=
  | newMessage (message : JsVal)
  | callIncoming (callId : string) (signal : JsVal) (from : JsVal) (callType : JsVal)
  | callFailed (error : string) (message : string)
  | callAnswered (signal : JsVal) (from : Z)
  | callCandidate (candidate : JsVal) (from : Z)
  | callEnded (from : Z) (reason : JsVal).

(** One [sock.emit(event, payload)]. *)
Definition Emission : Type := SocketId * Emit.

(** The [from] field of an emitted payload, when it has one. *)
Definition from_field (e : Emit) : option JsVal :=
  match e with
  | newMessage _ | callFailed _ _ => None
  | callIncoming _ _ f _ => Some f
  | callAnswered _ f | callCandidate _ f | callEnded f _ => Some (VNum f)
  end.

Record CallData := mkCallData {
  otherParticipantId : JsVal;
  type : JsVal;
  startTime : Z
}.

Record UserConnection := mkUserConnection {
  socket : SocketId;
  timestamp : Z;
  calls : list (string * CallData)
}.

Definition with_calls (c : UserConnection) (cs : list (string * CallData)) : UserConnection :=
  {| socket := socket c; timestamp := timestamp c; calls := cs |}.

(** [class UserConnections]: [this.connections] is keyed by [socket.user.id],
    the integer id signed into the token by the login route. *)
Module UserConnections.

(** [this.connections.get(v)] for an arbitrary value [v]. *)
Definition get (this : gmap Z UserConnection) (userId : JsVal) : option UserConnection :=
  match userId with
  | VNum k => this !! k
  | _ => None
  end.

Definition add (this : gmap Z UserConnection) (userId : Z) (sock : SocketId) (now : Z)
  : gmap Z UserConnection * UserConnection :=
  let userConnection := {| socket := sock; timestamp := now; calls := [] |} in
  (<[userId := userConnection]> this, userConnection).

Definition addCall (this : gmap Z UserConnection) (userId : Z) (callId : string)
    (data : CallData) : gmap Z UserConnection :=
  match this !! userId with
  | Some connection =>
      <[userId := with_calls connection (JsMap.set callId data (calls connection))]> this
  | None => this
  end.

Definition endCall (this : gmap Z UserConnection) (userId : Z) (callId : JsVal)
  : gmap Z UserConnection * list Emission :=
  match this !! userId with
  | Some connection =>
      match JsMap.get_val callId (calls connection) with
      | Some callData =>
          let out :=
            match get this (otherParticipantId callData) with
            | Some otherParticipant =>
                [(socket otherParticipant, callEnded userId (VStr "REMOTE_ENDED"))]
            | None => []
            end in
          (<[userId := with_calls connection (JsMap.delete_val callId (calls connection))]> this,
           out)
      | None => (this, [])
      end
  | None => (this, [])
  end.

(** One turn of [connection.calls.forEach]: the callback runs on the
    registry as the earlier turns left it. *)
Definition endCall_each (userId : Z) (acc : gmap Z UserConnection * list Emission)
    (entry : string * CallData) : gmap Z UserConnection * list Emission :=
  let '(this', o) := endCall (fst acc) userId (VStr (fst entry)) in
  (this', snd acc ++ o).

(** [forEach] walks the entries present when it starts; the callback
    deletes only the key being visited and adds none, and [endCall] itself
    skips a key that is gone. *)
Definition remove (this : gmap Z UserConnection) (userId : Z)
  : gmap Z UserConnection * list Emission :=
  match this !! userId with
  | Some connection =>
      let r := foldl (endCall_each userId) (this, []) (calls connection) in
      (delete userId (fst r), snd r)
  | None => (this, [])
  end.

End UserConnections.

(** What the counterpart of a session held by [P] is sent when [P] ends it:
    nothing when the counterpart is not registered. *)
Definition notified (this : gmap Z UserConnection) (P : Z) (cd : CallData) : list Emission :=
  match UserConnections.get this (otherParticipantId cd) with
  | Some o => [(socket o, callEnded P (VStr "REMOTE_ENDED"))]
  | None => []
  end.

(** ** Messages service: socket handlers

    Each handler is closed over its socket [sock] and [uid = socket.user.id]. *)
Module MessagesService.

Definition USER_UNAVAILABLE : string := "USER_UNAVAILABLE".
Definition notConnected : string := "L'utilisateur n'est pas connecté".

(** [socket.on('callUser')]; [t_id] and [t_start] are the two readings of
    [Date.now()].  The debug lines that interpolate payload fields are kept
    where they stand, since the interpolation can throw: [userToCall] and
    [from] after [addCall] and before the emit, [userToCall] before
    [callFailed].  (A callee that was found is a number, so the call id
    itself always renders.) *)
Definition on_callUser (this : gmap Z UserConnection) (sock : SocketId) (uid : Z)
    (t_id t_start : Z) (data : JsVal) : option (gmap Z UserConnection * list Emission) :=
  userToCall ← get_prop data "userToCall";
  match UserConnections.get this userToCall with
  | Some targetConnection =>
      let callId :=
        to_string (VNum uid) +:+ "-" +:+ to_string userToCall +:+ "-"
          +:+ to_string (VNum t_id) in
      callType ← get_prop data "callType";
      let this' :=
        UserConnections.addCall this uid callId
          {| otherParticipantId := userToCall; type := callType; startTime := t_start |} in
      from ← get_prop data "from";
      template userToCall ;;
      template from ;;
      signalData ← get_prop data "signalData";
      Some (this', [(socket targetConnection, callIncoming callId signalData from callType)])
  | None =>
      template userToCall ;;
      Some (this, [(sock, callFailed USER_UNAVAILABLE notConnected)])
  end.

(** [socket.on('answerCall')] *)
Definition on_answerCall (this : gmap Z UserConnection) (uid : Z) (data : JsVal)
  : option (gmap Z UserConnection * list Emission) :=
  to ← get_prop data "to";
  match UserConnections.get this to with
  | Some targetConnection =>
      signal ← get_prop data "signal";
      Some (this, [(socket targetConnection, callAnswered signal uid)])
  | None => Some (this, [])
  end.

(** [socket.on('callCandidate')] *)
Definition on_callCandidate (this : gmap Z UserConnection) (uid : Z) (data : JsVal)
  : option (gmap Z UserConnection * list Emission) :=
  to ← get_prop data "to";
  match UserConnections.get this to with
  | Some targetConnection =>
      candidate ← get_prop data "candidate";
      Some (this, [(socket targetConnection, callCandidate candidate uid)])
  | None => Some (this, [])
  end.

(** [socket.on('endCall')] *)
Definition on_endCall (this : gmap Z UserConnection) (uid : Z) (data : JsVal)
  : option (gmap Z UserConnection * list Emission) :=
  callId ← get_prop data "callId";
  if truthy callId then Some (UserConnections.endCall this uid callId)
  else
    to ← get_prop data "to";
    match UserConnections.get this to with
    | Some targetConnection =>
        reason ← get_prop data "reason";
        Some (this, [(socket targetConnection, callEnded uid (js_or reason (VStr "NORMAL")))])
    | None => Some (this, [])
    end.

End MessagesService.

(** ** Messages service: the socket.io server around the handlers

    [clients] are the sockets connected to the namespace (those that passed
    [authenticateSocketToken] and have not disconnected), each with its
    [socket.user.id]; socket.io gives every new socket a fresh identity. *)
Record Server := mkServer {
  clients : gmap SocketId Z;
  connectedUsers : gmap Z UserConnection;
  nextSocket : SocketId
}.

Inductive ClientEvent : Type :=
  | RecvSendMessage (message : JsVal)
  | RecvCallUser (t_id t_start : Z) (data : JsVal)
  | RecvAnswerCall (data : JsVal)
  | RecvCallCandidate (data : JsVal)
  | RecvEndCall (data : JsVal)
  | Disconnect
  | SocketError.

Inductive Input : Type :=
  | Connect (uid : Z) (now : Z)
  | Recv (sock : SocketId) (ev : ClientEvent).

(** [socket.broadcast.emit(e)]: every socket of the namespace but [sock]. *)
Definition broadcast (cl : gmap SocketId Z) (sock : SocketId) (e : Emit) : list Emission :=
  (λ s, (s, e)) <$> elements (dom cl ∖ {[sock]}).

Definition with_users (s : Server) (r : gmap Z UserConnection * list Emission)
  : Server * list Emission :=
  ({| clients := clients s; connectedUsers := fst r; nextSocket := nextSocket s |}, snd r).

(** The listeners registered on one socket in [io.on('connection')]. *)
Definition handle (s : Server) (sock : SocketId) (uid : Z) (ev : ClientEvent)
  : option (Server * list Emission) :=
  match ev with
  | RecvSendMessage message => Some (s, broadcast (clients s) sock (newMessage message))
  | RecvCallUser t_id t_start data =>
      with_users s <$> MessagesService.on_callUser (connectedUsers s) sock uid t_id t_start data
  | RecvAnswerCall data =>
      with_users s <$> MessagesService.on_answerCall (connectedUsers s) uid data
  | RecvCallCandidate data =>
      with_users s <$> MessagesService.on_callCandidate (connectedUsers s) uid data
  | RecvEndCall data =>
      with_users s <$> MessagesService.on_endCall (connectedUsers s) uid data
  | Disconnect =>
      let r := UserConnections.remove (connectedUsers s) uid in
      Some ({| clients := delete sock (clients s);
               connectedUsers := fst r;
               nextSocket := nextSocket s |}, snd r)
  | SocketError =>
      Some (with_users s (UserConnections.remove (connectedUsers s) uid))
  end.

(** One input of the event loop.  A packet of a socket that is not
    connected reaches no listener. *)
Definition step (s : Server) (i : Input) : option (Server * list Emission) :=
  match i with
  | Connect uid now =>
      let sock := nextSocket s in
      Some ({| clients := <[sock := uid]> (clients s);
               connectedUsers := fst (UserConnections.add (connectedUsers s) uid sock now);
               nextSocket := S sock |}, [])
  | Recv sock ev =>
      match clients s !! sock with
      | Some uid => handle s sock uid ev
      | None => Some (s, [])
      end
  end.

Definition init : Server :=
  {| clients := ∅; connectedUsers := ∅; nextSocket := 0 |}.

(** Inputs in sequence, the emissions concatenated. *)
Fixpoint run (s : Server) (inputs : list Input) : option (Server * list Emission) :=
  match inputs with
  | [] => Some (s, [])
  | i :: rest =>
      '(s1, out1) ← step s i;
      '(s2, out2) ← run s1 rest;
      Some (s2, out1 ++ out2)
  end.

Inductive reachable : Server → Prop :=
  | reachable_init : reachable init
  | reachable_step s i s' out :
      reachable s → step s i = Some (s', out) → reachable s'.

(** ** Users service: [onlineUsers] and its handlers *)
Module UsersService.

Inductive Emit : Type :=
  | incomingCall (from : Z) (offer : JsVal)
  | callAnswered (from : Z) (answer : JsVal)
  | iceCandidate (from : Z) (candidate : JsVal).

(** [onlineUsers.get(v)] *)
Definition get (onlineUsers : gmap Z SocketId) (v : JsVal) : option SocketId :=
  match v with
  | VNum k => onlineUsers !! k
  | _ => None
  end.

(** [onlineUsers.set(socket.user.id, socket)] *)
Definition on_connection (onlineUsers : gmap Z SocketId) (uid : Z) (sock : SocketId)
  : gmap Z SocketId :=
  <[uid := sock]> onlineUsers.

(** Each call listener starts with a debug line that interpolates
    [data.targetUserId], which can throw; that of [callUser] also passes
    [data] to [console.log] after the interpolated text. *)
Definition on_callUser (onlineUsers : gmap Z SocketId) (uid : Z) (data : JsVal)
  : option (gmap Z SocketId * list (SocketId * Emit)) :=
  targetUserId ← get_prop data "targetUserId";
  rendered ← template targetUserId;
  if log_with_arg_throws
       ("[DEBUG][Socket] callUser from " +:+ Z_to_string uid +:+ " to " +:+ rendered) data
  then None else
  match get onlineUsers targetUserId with
  | Some targetSocket =>
      offer ← get_prop data "offer";
      Some (onlineUsers, [(targetSocket, incomingCall uid offer)])
  | None => Some (onlineUsers, [])
  end.

Definition on_answerCall (onlineUsers : gmap Z SocketId) (uid : Z) (data : JsVal)
  : option (gmap Z SocketId * list (SocketId * Emit)) :=
  targetUserId ← get_prop data "targetUserId";
  template targetUserId ;;
  match get onlineUsers targetUserId with
  | Some targetSocket =>
      answer ← get_prop data "answer";
      Some (onlineUsers, [(targetSocket, callAnswered uid answer)])
  | None => Some (onlineUsers, [])
  end.

Definition on_iceCandidate (onlineUsers : gmap Z SocketId) (uid : Z) (data : JsVal)
  : option (gmap Z SocketId * list (SocketId * Emit)) :=
  targetUserId ← get_prop data "targetUserId";
  template targetUserId ;;
  match get onlineUsers targetUserId with
  | Some targetSocket =>
      candidate ← get_prop data "candidate";
      Some (onlineUsers, [(targetSocket, iceCandidate uid candidate)])
  | None => Some (onlineUsers, [])
  end.

Definition on_disconnect (onlineUsers : gmap Z SocketId) (uid : Z) : gmap Z SocketId :=
  delete uid onlineUsers.

End UsersService.

(** ** Observations and sample data *)

(** The [from] fields a handler run delivered, in order; none when the
    handler threw. *)
Definition froms (res : option (gmap Z UserConnection * list Emission)) : list (option JsVal) :=
  match res with
  | Some (_, out) => (λ em : Emission, from_field em.2) <$> out
  | None => []
  end.

(** Principal 1 on socket 10 holds two sessions, with principals 2 and 3,
    who are on sockets 20 and 30. *)
Definition conn_A : UserConnection :=
  {| socket := 10; timestamp := 0;
     calls := [("1-2-1000",
                {| otherParticipantId := VNum 2; type := VStr "video"; startTime := 1000 |});
               ("1-3-2000",
                {| otherParticipantId := VNum 3; type := VStr "audio"; startTime := 2000 |})] |}.
Definition conn_B : UserConnection := {| socket := 20; timestamp := 0; calls := [] |}.
Definition conn_C : UserConnection := {| socket := 30; timestamp := 0; calls := [] |}.
Definition registry_ABC : gmap Z UserConnection :=
  <[1%Z := conn_A]> (<[2%Z := conn_B]> (<[3%Z := conn_C]> ∅)).

(** Principals 1 and 2 only, no session. *)
Definition registry_AB : gmap Z UserConnection :=
  <[1%Z := {| socket := 10; timestamp := 0; calls := [] |}]> (<[2%Z := conn_B]> ∅).

(** Users service: principal 1 alone, on socket 7. *)
Definition online_A : gmap Z SocketId := <[1%Z := 7]> ∅.

(** Payloads of the end-to-end scenario; the [callUser] payload of
    [spoofed_call] names principal 99 as its sender. *)
Definition call_B : JsVal :=
  VObj [("userToCall", VNum 2); ("signalData", VStr "sdp1"); ("from", VNum 1);
        ("callType", VStr "video")].
Definition spoofed_call : JsVal :=
  VObj [("userToCall", VNum 2); ("signalData", VStr "sdp1"); ("from", VNum 99);
        ("callType", VStr "video")].
Definition answer_as_1 : JsVal :=
  VObj [("to", VNum 1); ("signal", VStr "sdp2"); ("from", VNum 1)].
Definition answer_as_99 : JsVal :=
  VObj [("to", VNum 1); ("signal", VStr "sdp2"); ("from", VNum 99); ("userId", VNum 99)].
Definition answer_A : JsVal := VObj [("to", VNum 1); ("signal", VStr "sdp2")].
Definition end_by_id : JsVal := VObj [("callId", VStr "1-2-1000")].
Definition users_call_B : JsVal := VObj [("targetUserId", VNum 2); ("offer", VStr "sdp1")].
(** A target that is an object with its own [toString] property. *)
Definition unrenderable : JsVal := VObj [("toString", VNull)].
Definition users_answer_unrenderable : JsVal :=
  VObj [("targetUserId", unrenderable); ("answer", VStr "sdp2"); ("candidate", VStr "ice")].

(** A registers, B registers, A calls B, B answers, A ends the call by id. *)
Definition scenario : list Input :=
  [Connect 1 0; Connect 2 0;
   Recv 0 (RecvCallUser 1000 1000 call_B);
   Recv 1 (RecvAnswerCall answer_A);
   Recv 0 (RecvEndCall end_by_id)].

(** Principals 1, 2 and 3 connected, on sockets 0, 1 and 2. *)
Definition three_online : Server :=
  {| clients := <[0 := 1%Z]> (<[1 := 2%Z]> (<[2 := 3%Z]> ∅));
     connectedUsers :=
       <[1%Z := {| socket := 0; timestamp := 0; calls := [] |}]>
         (<[2%Z := {| socket := 1; timestamp := 0; calls := [] |}]>
            (<[3%Z := {| socket := 2; timestamp := 0; calls := [] |}]> ∅));
     nextSocket := 3 |}.

(** The same after principal 1 called principal 2 at time 1000. *)
Definition one_calling_two : Server :=
  {| clients := clients three_online;
     connectedUsers :=
       <[1%Z := {| socket := 0; timestamp := 0;
                   calls := [("1-2-1000",
                              {| otherParticipantId := VNum 2; type := VStr "video";
                                 startTime := 1000 |})] |}]>
         (connectedUsers three_online);
     nextSocket := 3 |}.

(** ** Invariant of the running server *)

(** A call id as [callUser] mints it for caller [P]: the caller's id, a
    dash, and the rest. *)
Definition minted_by (P : Z) (callId : string) : Prop :=
  ∃ rest, callId = Z_to_string P +:+ "-" +:+ rest.

(** The entry registered under [P] holds a connected socket authenticated
    as [P], and only call ids minted for [P]. *)
Definition entry_ok (cl : gmap SocketId Z) (P : Z) (c : UserConnection) : Prop :=
  cl !! socket c = Some P
  ∧ ∀ k cd, JsMap.get k (calls c) = Some cd → minted_by P k.

Definition registry_ok (cl : gmap SocketId Z) (this : gmap Z UserConnection) : Prop :=
  ∀ P c, this !! P = Some c → entry_ok cl P c.

Definition server_inv (s : Server) : Prop :=
  registry_ok (clients s) (connectedUsers s)
  ∧ (∀ sk, is_Some (clients s !! sk) → sk < nextSocket s).

(** ** Call ids and well-formed call sets *)

(** The id [callUser] mints when caller [uid] reaches the registered
    principal [target] at clock reading [t_id]. *)
Definition callId_of (uid target t_id : Z) : string :=
  to_string (VNum uid) +:+ "-" +:+ to_string (VNum target) +:+ "-" +:+ to_string (VNum t_id).

(** A session stored under [P]: its key is the id minted for a call from
    [P] to the principal the session names as its counterpart. *)
Definition session_ok (P : Z) (e : string * CallData) : Prop :=
  ∃ target t_id, e.1 = callId_of P target t_id ∧ otherParticipantId e.2 = VNum target.

(** The call set of [P] has distinct keys, as a [Map] has, and holds only
    such sessions. *)
Definition entry_wf (P : Z) (c : UserConnection) : Prop :=
  NoDup (calls c).*1 ∧ Forall (session_ok P) (calls c).

Definition registry_wf (this : gmap Z UserConnection) : Prop :=
  ∀ P c, this !! P = Some c → entry_wf P c.

(** [null] or [undefined]. *)
Definition nullish (v : JsVal) : bool :=
  match v with
  | VUndef | VNull => true
  | _ => false
  end.

(** The server after the listeners of [sock] ran [remove(P)]; the socket
    leaves the namespace on [disconnect] and stays on [error]. *)
Definition after_disconnect (s : Server) (sock : SocketId) (P : Z) : Server :=
  {| clients := delete sock (clients s);
     connectedUsers := delete P (connectedUsers s);
     nextSocket := nextSocket s |}.

Definition after_error (s : Server) (P : Z) : Server :=
  {| clients := clients s;
     connectedUsers := delete P (connectedUsers s);
     nextSocket := nextSocket s |}.

(** Principal 1 connected twice (sockets 0 and 1), principal 2 once. *)
Definition reconnected : Server :=
  {| clients := <[0 := 1%Z]> (<[1 := 1%Z]> (<[2 := 2%Z]> ∅));
     connectedUsers :=
       <[1%Z := {| socket := 1; timestamp := 5; calls := [] |}]>
         (<[2%Z := {| socket := 2; timestamp := 7; calls := [] |}]> ∅);
     nextSocket := 3 |}.

(** The socket is the sender's own or that of a registered connection. *)
Definition own_or_registered (this : gmap Z UserConnection) (sock sk : SocketId) : Prop :=
  sk = sock ∨ ∃ Q c, this !! Q = Some c ∧ sk = socket c.

(** ** Users service: the socket.io server around the handlers *)
Module UsersServer.

(** [clients] are the sockets that passed the [io.use] token check and
    have not disconnected, each with its [socket.user.id]. *)
Record Server := mkServer {
  clients : gmap SocketId Z;
  onlineUsers : gmap Z SocketId;
  nextSocket : SocketId
}.

Inductive ClientEvent : Type :=
  | RecvCallUser (data : JsVal)
  | RecvAnswerCall (data : JsVal)
  | RecvIceCandidate (data : JsVal)
  | Disconnect.

Inductive Input : Type :=
  | Connect (uid : Z)
  | Recv (sock : SocketId) (ev : ClientEvent).

Definition with_online (s : Server) (r : gmap Z SocketId * list (SocketId * UsersService.Emit))
  : Server * list (SocketId * UsersService.Emit) :=
  ({| clients := clients s; onlineUsers := fst r; nextSocket := nextSocket s |}, snd r).

(** The listeners registered on one socket in [io.on('connection')]. *)
Definition handle (s : Server) (sock : SocketId) (uid : Z) (ev : ClientEvent)
  : option (Server * list (SocketId * UsersService.Emit)) :=
  match ev with
  | RecvCallUser data => with_online s <$> UsersService.on_callUser (onlineUsers s) uid data
  | RecvAnswerCall data => with_online s <$> UsersService.on_answerCall (onlineUsers s) uid data
  | RecvIceCandidate data =>
      with_online s <$> UsersService.on_iceCandidate (onlineUsers s) uid data
  | Disconnect =>
      Some ({| clients := delete sock (clients s);
               onlineUsers := UsersService.on_disconnect (onlineUsers s) uid;
               nextSocket := nextSocket s |}, [])
  end.

Definition step (s : Server) (i : Input)
  : option (Server * list (SocketId * UsersService.Emit)) :=
  match i with
  | Connect uid =>
      let sock := nextSocket s in
      Some ({| clients := <[sock := uid]> (clients s);
               onlineUsers := UsersService.on_connection (onlineUsers s) uid sock;
               nextSocket := S sock |}, [])
  | Recv sock ev =>
      match clients s !! sock with
      | Some uid => handle s sock uid ev
      | None => Some (s, [])
      end
  end.

Definition init : Server := {| clients := ∅; onlineUsers := ∅; nextSocket := 0 |}.

Inductive reachable : Server → Prop :=
  | reachable_init : reachable init
  | reachable_step s i s' out :
      reachable s → step s i = Some (s', out) → reachable s'.

(** Every online entry names a connected socket authenticated as its key. *)
Definition inv (s : Server) : Prop :=
  (∀ P sk, onlineUsers s !! P = Some sk → clients s !! sk = Some P)
  ∧ (∀ sk, is_Some (clients s !! sk) → sk < nextSocket s).

(** The [targetUserId] a call event names, and the [from] of an emitted
    event. *)
Definition event_target (ev : ClientEvent) : option JsVal :=
  match ev with
  | RecvCallUser data | RecvAnswerCall data | RecvIceCandidate data =>
      get_prop data "targetUserId"
  | Disconnect => None
  end.

Definition from_of (e : UsersService.Emit) : Z :=
  match e with
  | UsersService.incomingCall f _ | UsersService.callAnswered f _
  | UsersService.iceCandidate f _ => f
  end.

(** Principal 1 connected twice (sockets 0 and 1), principal 2 once. *)
Definition reconnected : Server :=
  {| clients := <[0 := 1%Z]> (<[1 := 1%Z]> (<[2 := 2%Z]> ∅));
     onlineUsers := <[1%Z := 1]> (<[2%Z := 2]> ∅);
     nextSocket := 3 |}.

End UsersServer.

(** ** Messages service: reactions on a message

    The update that [POST] and [DELETE /api/messages/:id/reactions] apply to
    [message.reactions] between [findById] and [save], for a request whose
    [emoji] is a string; [userId] is [req.user.id]. *)
Module Reactions.

Record Reaction := mkReaction {
  emoji : string;
  count : Z;
  users : list Z
}.

(** [reactions.find(r => r.emoji === emoji)] *)
Definition find (emoji0 : string) (reactions : list Reaction) : option Reaction :=
  List.find (λ r, String.eqb (emoji r) emoji0) reactions.

(** [users.includes(userId)] *)
Definition includes (userId : Z) (l : list Z) : bool := existsb (Z.eqb userId) l.

(** [find] returns the array's own element, so assigning to its fields
    rewrites the first reaction with that emoji, in place. *)
Fixpoint update_found (emoji0 : string) (f : Reaction → Reaction)
    (reactions : list Reaction) : list Reaction :=
  match reactions with
  | [] => []
  | r :: rest =>
      if String.eqb (emoji r) emoji0 then f r :: rest
      else r :: update_found emoji0 f rest
  end.

(** [reaction.count += 1; reaction.users.push(userId)] *)
Definition bump (userId : Z) (r : Reaction) : Reaction :=
  {| emoji := emoji r; count := count r + 1; users := users r ++ [userId] |}.

(** [reaction.count -= 1; reaction.users = reaction.users.filter(u => u !== userId)] *)
Definition drop (userId : Z) (r : Reaction) : Reaction :=
  {| emoji := emoji r; count := count r - 1;
     users := List.filter (λ u, negb (Z.eqb u userId)) (users r) |}.

(** The [POST] route. *)
Definition add_reaction (reactions : list Reaction) (emoji0 : string) (userId : Z)
  : list Reaction :=
  match find emoji0 reactions with
  | Some reaction =>
      if includes userId (users reaction) then reactions
      else update_found emoji0 (bump userId) reactions
  | None => reactions ++ [{| emoji := emoji0; count := 1; users := [userId] |}]
  end.

(** The [DELETE] route; [None] is the 400 answer, on which nothing is saved
    or emitted. *)
Definition remove_reaction (reactions : list Reaction) (emoji0 : string) (userId : Z)
  : option (list Reaction) :=
  match find emoji0 reactions with
  | Some reaction =>
      if includes userId (users reaction) then
        let reactions1 := update_found emoji0 (drop userId) reactions in
        if (count (drop userId reaction) <=? 0)%Z
        then Some (List.filter (λ r, negb (String.eqb (emoji r) emoji0)) reactions1)
        else Some reactions1
      else None
  | None => None
  end.

(** [userId] is recorded as having reacted with [emoji0]. *)
Definition reacted (reactions : list Reaction) (emoji0 : string) (userId : Z) : Prop :=
  ∃ r, find emoji0 reactions = Some r ∧ userId ∈ users r.

(** One reaction per emoji, each counting its distinct users, of which it
    has at least one. *)
Definition coherent (reactions : list Reaction) : Prop :=
  NoDup (emoji <$> reactions)
  ∧ Forall (λ r, count r = Z.of_nat (length (users r)) ∧ NoDup (users r) ∧ users r ≠ [])
           reactions.

Definition thumbs : list Reaction :=
  [{| emoji := "+1"; count := 2; users := [1; 2]%Z |};
   {| emoji := "heart"; count := 1; users := [3]%Z |}].

End Reactions.

(** ** Bearer token check of the HTTP routes ([authenticateToken]) *)
Module Auth.

(** [s.split(' ')] *)
Fixpoint split_space (s : string) : list string :=
  match s with
  | EmptyString => [EmptyString]
  | String c rest =>
      if Ascii.eqb c " " then EmptyString :: split_space rest
      else match split_space rest with
           | w :: ws => String c w :: ws
           | [] => [String c EmptyString]
           end
  end.

(** [authHeader && authHeader.split(' ')[1]]; [None] is [undefined]. *)
Definition header_token (authHeader : option string) : option string :=
  match authHeader with
  | None => None
  | Some EmptyString => Some EmptyString
  | Some h => split_space h !! 1
  end.

Inductive Outcome : Type :=
  | sendStatus (code : nat)
  | next (user : JsVal).

(** [verify] is [jwt.verify] with the service's secret: the decoded payload,
    or [None] on error. *)
Definition authenticateToken (verify : string → option JsVal) (authHeader : option string)
  : Outcome :=
  match header_token authHeader with
  | None | Some EmptyString => sendStatus 401
  | Some token =>
      match verify token with
      | None => sendStatus 403
      | Some user => next user
      end
  end.

Fixpoint has_space (s : string) : bool :=
  match s with
  | EmptyString => false
  | String c rest => Ascii.eqb c " " || has_space rest
  end.

(** A verifier that knows one token. *)
Definition verify_secret (token : string) : option JsVal :=
  if String.eqb token "secret" then Some (VObj [("id", VNum 1)]) else None.

End Auth.

(** ** Users service: profile update ([PUT /api/profile]) *)
Module Profile.

Record User := mkUser {
  id : Z;
  username : JsVal;
  password : JsVal;
  bio : JsVal;
  avatar : JsVal;
  status : JsVal
}.

(** The assignments made to the row found for [req.user.id]; [None] when
    destructuring [req.body] throws. *)
Definition update (userData : User) (body : JsVal) : option User :=
  username' ← get_prop body "username";
  bio' ← get_prop body "bio";
  avatar' ← get_prop body "avatar";
  status' ← get_prop body "status";
  Some {| id := id userData;
          username := js_or username' (username userData);
          password := password userData;
          bio := match bio' with VUndef => bio userData | _ => bio' end;
          avatar := js_or avatar' (avatar userData);
          status := js_or status' (status userData) |}.

Definition alice : User :=
  {| id := 1; username := VStr "alice"; password := VStr "hash"; bio := VStr "hi";
     avatar := VNull; status := VStr "online" |}.

End Profile.

(** * Properties *)

(** ** Interpolation *)

Lemma template_coercible (v : JsVal) :
  uncoercible v = false → template v = Some (to_string v).
Proof. unfold template. by intros ->. Qed.

Lemma template_None (v : JsVal) : template v = None ↔ uncoercible v = true.
Proof. unfold template. by destruct (uncoercible v). Qed.

Lemma template_num (n : Z) : template (VNum n) = Some (Z_to_string n).
Proof. done. Qed.

(** ** Debug lines that pass the payload after the text *)

Lemma log_with_arg_safe (format : string) (arg : JsVal) :
  uncoercible arg = false → log_with_arg_throws format arg = false.
Proof.
  unfold log_with_arg_throws. intros ->.
  destruct (first_placeholder format); [apply andb_false_r | done].
Qed.

Lemma first_placeholder_uint_app (d : Decimal.uint) (r : string) :
  first_placeholder (NilEmpty.string_of_uint d +:+ r) = first_placeholder r.
Proof. induction d; simpl; done. Qed.

Lemma first_placeholder_decimal_app (n : Z) (r : string) :
  first_placeholder (Z_to_string n +:+ r) = first_placeholder r.
Proof.
  unfold Z_to_string. destruct (Z.to_int n); simpl;
    apply first_placeholder_uint_app.
Qed.

Lemma first_placeholder_uint (d : Decimal.uint) :
  first_placeholder (NilEmpty.string_of_uint d) = None.
Proof. induction d; simpl; done. Qed.

Lemma first_placeholder_decimal (n : Z) : first_placeholder (Z_to_string n) = None.
Proof.
  unfold Z_to_string. destruct (Z.to_int n); simpl; apply first_placeholder_uint.
Qed.

(** A numeric callee puts no placeholder into the text of the [callUser]
    debug line, whatever the payload. *)
Lemma callUser_log_numeric (uid P : Z) (data : JsVal) :
  log_with_arg_throws
    ("[DEBUG][Socket] callUser from " +:+ Z_to_string uid +:+ " to " +:+ Z_to_string P)
    data = false.
Proof.
  unfold log_with_arg_throws.
  assert (∀ r, first_placeholder ("[DEBUG][Socket] callUser from " +:+ r)
               = first_placeholder r) as -> by (intros r; reflexivity).
  rewrite first_placeholder_decimal_app.
  assert (∀ r, first_placeholder (" to " +:+ r) = first_placeholder r) as ->
    by (intros r; reflexivity).
  by rewrite first_placeholder_decimal.
Qed.

(** Case analysis on every interpolation in the goal; the throwing cases
    close by themselves when the goal assumes a normal return. *)
Ltac case_templates :=
  repeat match goal with
         | |- context [template ?v] => destruct (template v); simpl
         end;
  try done.

(** ** The insertion-ordered map *)
Section JsMapFacts.
Context {V : Type}.
Implicit Types (m : list (string * V)) (k : string) (v : V).

Lemma JsMap_get_set_eq m k v : JsMap.get k (JsMap.set k v m) = Some v.
Proof.
  induction m as [|[k' v'] m IH]; simpl.
  - by rewrite String.eqb_refl.
  - destruct (String.eqb k k') eqn:E; simpl; rewrite E; [done | apply IH].
Qed.

Lemma JsMap_get_set_ne m k k' v :
  k ≠ k' → JsMap.get k' (JsMap.set k v m) = JsMap.get k' m.
Proof.
  intros Hne. induction m as [|[k0 v0] m IH]; simpl.
  - destruct (String.eqb k' k) eqn:E; [|done].
    apply String.eqb_eq in E. congruence.
  - destruct (String.eqb k k0) eqn:E; simpl.
    + apply String.eqb_eq in E. subst k0.
      destruct (String.eqb k' k) eqn:E'; [|done].
      apply String.eqb_eq in E'. congruence.
    + by rewrite IH.
Qed.

Lemma JsMap_get_delete_eq m k : JsMap.get k (JsMap.delete k m) = None.
Proof.
  induction m as [|[k' v'] m IH]; simpl; [done|].
  destruct (String.eqb k k') eqn:E; simpl; rewrite ?E; apply IH.
Qed.

Lemma JsMap_get_delete_ne m k k' :
  k ≠ k' → JsMap.get k' (JsMap.delete k m) = JsMap.get k' m.
Proof.
  intros Hne. induction m as [|[k0 v0] m IH]; simpl; [done|].
  destruct (String.eqb k k0) eqn:E; simpl.
  - apply String.eqb_eq in E. subst k0.
    destruct (String.eqb k' k) eqn:E'; [|done].
    apply String.eqb_eq in E'. congruence.
  - by rewrite IH.
Qed.

Lemma JsMap_delete_absent m k : JsMap.get k m = None → JsMap.delete k m = m.
Proof.
  induction m as [|[k' v'] m IH]; simpl; [done|].
  destruct (String.eqb k k'); [done|]. intros H. by rewrite IH.
Qed.

Lemma JsMap_get_delete_Some m k k' v :
  JsMap.get k' (JsMap.delete k m) = Some v → JsMap.get k' m = Some v.
Proof.
  destruct (decide (k = k')) as [->|Hne].
  - by rewrite JsMap_get_delete_eq.
  - by rewrite JsMap_get_delete_ne.
Qed.

Lemma JsMap_get_Some_key m k v : JsMap.get k m = Some v → k ∈ m.*1.
Proof.
  induction m as [|[k' v'] m IH]; simpl; [done|].
  destruct (String.eqb k k') eqn:E.
  - apply String.eqb_eq in E. subst. intros _. apply list_elem_of_here.
  - intros H. apply list_elem_of_further. by apply IH.
Qed.

End JsMapFacts.

(** ** The registry class *)
Section RegistryFacts.
Implicit Types (this : gmap Z UserConnection) (c : UserConnection).

Lemma with_calls_id c : with_calls c (calls c) = c.
Proof. by destruct c. Qed.

Lemma endCall_found this P c k cd :
  this !! P = Some c → JsMap.get k (calls c) = Some cd →
  UserConnections.endCall this P (VStr k)
  = (<[P := with_calls c (JsMap.delete k (calls c))]> this, notified this P cd).
Proof.
  intros HP Hk. unfold UserConnections.endCall, notified. simpl.
  by rewrite HP, Hk.
Qed.

Lemma endCall_absent this P c k :
  this !! P = Some c → JsMap.get k (calls c) = None →
  UserConnections.endCall this P (VStr k) = (this, []).
Proof.
  intros HP Hk. unfold UserConnections.endCall. simpl. by rewrite HP, Hk.
Qed.

Lemma endCall_unregistered this P v :
  this !! P = None → UserConnections.endCall this P v = (this, []).
Proof. intros HP. unfold UserConnections.endCall. by rewrite HP. Qed.

(** Whatever the call id, [endCall] rewrites at most the caller's own
    entry, and only its call set. *)
Lemma endCall_registry this P c v :
  this !! P = Some c →
  fst (UserConnections.endCall this P v)
  = <[P := with_calls c (JsMap.delete_val v (calls c))]> this.
Proof.
  intros HP. unfold UserConnections.endCall. rewrite HP.
  destruct (JsMap.get_val v (calls c)) eqn:E; simpl; [done|].
  assert (JsMap.delete_val v (calls c) = calls c) as ->.
  { destruct v; simpl in *; try done. by apply JsMap_delete_absent. }
  by rewrite with_calls_id, insert_id.
Qed.

Lemma notified_insert this P Q c cs cd :
  this !! Q = Some c →
  notified (<[Q := with_calls c cs]> this) P cd = notified this P cd.
Proof.
  intros HQ. unfold notified, UserConnections.get.
  destruct (otherParticipantId cd); try done.
  destruct (decide (Q = n)) as [->|Hne].
  - by rewrite lookup_insert_eq, HQ.
  - by rewrite lookup_insert_ne.
Qed.
End RegistryFacts.

(** ** [remove]: the cleanup cascade *)
Section RemoveFacts.
Variable P : Z.
Implicit Types (this : gmap Z UserConnection) (c : UserConnection).
Implicit Types (l : list (string * CallData)) (out : list Emission).

Lemma endCall_each_step this c out k cd :
  this !! P = Some c →
  UserConnections.endCall_each P (this, out) (k, cd)
  = (<[P := with_calls c (JsMap.delete k (calls c))]> this,
     out ++ match JsMap.get k (calls c) with
            | Some cd' => notified this P cd'
            | None => []
            end).
Proof.
  intros HP. unfold UserConnections.endCall_each. simpl.
  destruct (JsMap.get k (calls c)) as [cd'|] eqn:E.
  - by rewrite (endCall_found _ _ _ _ _ HP E).
  - rewrite (endCall_absent _ _ _ _ HP E).
    by rewrite JsMap_delete_absent, with_calls_id, insert_id.
Qed.

(** The cascade rewrites nothing but the call set of [P]. *)
Lemma cascade_registry l this c out :
  this !! P = Some c →
  ∃ cs, fst (foldl (UserConnections.endCall_each P) (this, out) l)
        = <[P := with_calls c cs]> this.
Proof.
  revert this c out. induction l as [|[k cd] l IH]; intros this c out HP; simpl.
  - exists (calls c). by rewrite with_calls_id, insert_id.
  - rewrite (endCall_each_step _ _ _ _ _ HP).
    edestruct (IH (<[P := with_calls c (JsMap.delete k (calls c))]> this)) as [cs Hcs].
    { apply lookup_insert_eq. }
    exists cs. rewrite Hcs. by rewrite insert_insert_eq.
Qed.

(** Emissions only accumulate. *)
Lemma cascade_out_grows l this out :
  ∃ tl, snd (foldl (UserConnections.endCall_each P) (this, out) l) = out ++ tl.
Proof.
  revert this out. induction l as [|e l IH]; intros this out; simpl.
  - exists []. by rewrite app_nil_r.
  - destruct (UserConnections.endCall_each P (this, out) e) as [this1 out1] eqn:E.
    unfold UserConnections.endCall_each in E. simpl in E.
    destruct (UserConnections.endCall this P (VStr e.1)) as [t o].
    injection E as <- <-.
    destruct (IH t (out ++ o)) as [tl Htl].
    exists (o ++ tl). by rewrite Htl, app_assoc.
Qed.

(** Every session that [get] retrieves is visited while it is still there. *)
Lemma cascade_notifies l this c out k cd em :
  this !! P = Some c →
  JsMap.get k (calls c) = Some cd →
  k ∈ l.*1 →
  em ∈ notified this P cd →
  em ∈ snd (foldl (UserConnections.endCall_each P) (this, out) l).
Proof.
  revert this c out. induction l as [|[k0 cd0] l IH]; intros this c out HP Hk Hin Hem.
  - by apply elem_of_nil in Hin.
  - simpl. rewrite (endCall_each_step _ _ _ _ _ HP).
    destruct (decide (k0 = k)) as [->|Hne].
    + rewrite Hk.
      destruct (cascade_out_grows l
        (<[P := with_calls c (JsMap.delete k (calls c))]> this)
        (out ++ notified this P cd)) as [tl ->].
      rewrite !elem_of_app. auto.
    + eapply (IH _ (with_calls c (JsMap.delete k0 (calls c)))).
      * apply lookup_insert_eq.
      * simpl. by rewrite JsMap_get_delete_ne.
      * simpl in Hin. apply elem_of_cons in Hin as [?|?]; [congruence | done].
      * by rewrite notified_insert.
Qed.

(** Nothing is sent that is not such a notification. *)
Lemma cascade_sound l this c out em :
  this !! P = Some c →
  em ∈ snd (foldl (UserConnections.endCall_each P) (this, out) l) →
  em ∈ out ∨ ∃ k cd, JsMap.get k (calls c) = Some cd ∧ em ∈ notified this P cd.
Proof.
  revert this c out. induction l as [|[k0 cd0] l IH]; intros this c out HP Hem.
  - by left.
  - simpl in Hem. rewrite (endCall_each_step _ _ _ _ _ HP) in Hem.
    eapply (IH _ (with_calls c (JsMap.delete k0 (calls c)))) in Hem;
      [|apply lookup_insert_eq].
    destruct Hem as [Hem|(k & cd & Hk & Hem)].
    + apply elem_of_app in Hem as [?|Hem]; [by left|].
      destruct (JsMap.get k0 (calls c)) as [cd'|] eqn:E.
      * right. by exists k0, cd'.
      * by apply elem_of_nil in Hem.
    + right. exists k, cd. simpl in Hk. split.
      * by eapply JsMap_get_delete_Some.
      * by rewrite notified_insert in Hem.
Qed.

(** With the keys of the call set distinct, as a [Map] has them, the
    notifications go out one per session, in insertion order. *)
Lemma cascade_exact l this c out :
  this !! P = Some c →
  NoDup l.*1 →
  (∀ k cd, (k, cd) ∈ l → JsMap.get k (calls c) = Some cd) →
  snd (foldl (UserConnections.endCall_each P) (this, out) l)
  = out ++ flat_map (λ e, notified this P e.2) l.
Proof.
  revert this c out. induction l as [|[k0 cd0] l IH]; intros this c out HP Hnd Hl.
  - simpl. by rewrite app_nil_r.
  - simpl. rewrite (endCall_each_step _ _ _ _ _ HP).
    rewrite (Hl k0 cd0) by apply list_elem_of_here.
    apply NoDup_cons in Hnd as [Hk0 Hnd].
    rewrite (IH _ (with_calls c (JsMap.delete k0 (calls c)))).
    + rewrite <- app_assoc. f_equal. f_equal.
      apply flat_map_ext. intros e. by rewrite notified_insert.
    + apply lookup_insert_eq.
    + done.
    + intros k cd Hin. simpl. rewrite JsMap_get_delete_ne.
      * apply Hl. by apply list_elem_of_further.
      * intros ->. apply Hk0. apply list_elem_of_fmap. by exists (k, cd).
Qed.

Lemma JsMap_get_NoDup l k cd :
  NoDup l.*1 → (k, cd) ∈ l → JsMap.get k l = Some cd.
Proof.
  induction l as [|[k0 cd0] l IH]; intros Hnd Hin.
  - by apply elem_of_nil in Hin.
  - apply NoDup_cons in Hnd as [Hk0 Hnd]. simpl.
    apply elem_of_cons in Hin as [[= -> ->]|Hin].
    + by rewrite String.eqb_refl.
    + destruct (String.eqb k k0) eqn:E.
      * apply String.eqb_eq in E. subst k0. exfalso. apply Hk0.
        apply list_elem_of_fmap. by exists (k, cd).
      * by apply IH.
Qed.
End RemoveFacts.

(** After [remove], the registry is the old one without [P]. *)
Lemma remove_registry (this : gmap Z UserConnection) (P : Z) (conn : UserConnection) :
  this !! P = Some conn →
  fst (UserConnections.remove this P) = delete P this
  ∧ snd (UserConnections.remove this P)
    = snd (foldl (UserConnections.endCall_each P) (this, []) (calls conn)).
Proof.
  intros HP. unfold UserConnections.remove. rewrite HP. simpl.
  destruct (cascade_registry P (calls conn) this conn [] HP) as [cs Hcs].
  by rewrite Hcs, delete_insert_eq.
Qed.

(** C1. Removing a registered principal [P] ends every session its
    connection holds: afterwards [P] and its sessions are gone from the
    registry (which is otherwise untouched); for each session that the call
    set retrieves and whose counterpart is registered, the counterpart's
    socket is sent [callEnded] with [from = P] and reason [REMOTE_ENDED];
    nothing else is sent; and when the keys of the call set are distinct the
    notifications are exactly one per session, in insertion order. *)
Theorem remove_cleanup_cascade (this : gmap Z UserConnection) (P : Z) (conn : UserConnection) :
  this !! P = Some conn →
  let r := UserConnections.remove this P in
  fst r = delete P this
  ∧ UserConnections.get (fst r) (VNum P) = None
  ∧ (∀ callId cd other,
       JsMap.get callId (calls conn) = Some cd →
       UserConnections.get this (otherParticipantId cd) = Some other →
       (socket other, callEnded P (VStr "REMOTE_ENDED")) ∈ snd r)
  ∧ (∀ em, em ∈ snd r →
       ∃ callId cd other,
         JsMap.get callId (calls conn) = Some cd
         ∧ UserConnections.get this (otherParticipantId cd) = Some other
         ∧ em = (socket other, callEnded P (VStr "REMOTE_ENDED")))
  ∧ (NoDup (calls conn).*1 →
       snd r = flat_map (λ e, notified this P e.2) (calls conn)).
Proof.
  intros HP r. subst r. unfold UserConnections.remove. rewrite HP. simpl.
  destruct (cascade_registry P (calls conn) this conn [] HP) as [cs Hcs].
  rewrite Hcs, delete_insert_eq.
  split; [done|]. split; [apply lookup_delete_eq|]. split; [|split].
  - intros callId cd other Hget Hother.
    eapply cascade_notifies; eauto.
    + by eapply JsMap_get_Some_key.
    + unfold notified. rewrite Hother. apply list_elem_of_here.
  - intros em Hem. apply (cascade_sound P _ _ conn) in Hem; [|done].
    destruct Hem as [Hem|(k & cd & Hk & Hem)]; [by apply elem_of_nil in Hem|].
    unfold notified in Hem.
    destruct (UserConnections.get this (otherParticipantId cd)) as [o|] eqn:Ho.
    + apply list_elem_of_singleton in Hem. by exists k, cd, o.
    + by apply elem_of_nil in Hem.
  - intros Hnd. rewrite (cascade_exact P _ _ conn); try done.
    intros k cd Hin. by apply JsMap_get_NoDup.
Qed.

(** ** Registration *)

(** The entries a finite map lists under one key. *)
Lemma map_to_list_at_key {V} (m : gmap Z V) (k : Z) (v : V) :
  m !! k = Some v → filter (λ e, e.1 = k) (map_to_list m) = [(k, v)].
Proof.
  intros Hk. apply Permutation_singleton_r.
  rewrite <- (insert_delete_id m k v Hk) at 1.
  rewrite map_to_list_insert by apply lookup_delete_eq.
  rewrite filter_cons_True by done.
  assert (filter (λ e : Z * V, e.1 = k) (map_to_list (delete k m)) = []) as ->; [|done].
  destruct (filter _ _) as [|[k' v'] l] eqn:E; [done|].
  assert ((k', v') ∈ filter (λ e : Z * V, e.1 = k) (map_to_list (delete k m))) as Hin.
  { rewrite E. apply list_elem_of_here. }
  apply list_elem_of_filter in Hin as [Hk' Hin]. simpl in Hk'. subst k'.
  apply elem_of_map_to_list in Hin. by rewrite lookup_delete_eq in Hin.
Qed.

(** C5. Registering [P] with handle [h1] and then with [h2] leaves exactly
    one entry listed under [P], and looking [P] up returns the connection
    made from [h2] (fresh call set, second timestamp), in the messages
    service; the users service maps [P] to [h2] alone. *)
Theorem register_twice_replaces (this : gmap Z UserConnection) (online : gmap Z SocketId)
    (P : Z) (h1 h2 : SocketId) (t1 t2 : Z) :
  let r1 := fst (UserConnections.add this P h1 t1) in
  let r2 := UserConnections.add r1 P h2 t2 in
  let o2 := UsersService.on_connection (UsersService.on_connection online P h1) P h2 in
  snd r2 = {| socket := h2; timestamp := t2; calls := [] |}
  ∧ UserConnections.get (fst r2) (VNum P) = Some (snd r2)
  ∧ filter (λ e, e.1 = P) (map_to_list (fst r2)) = [(P, snd r2)]
  ∧ (∀ Q, Q ≠ P → fst r2 !! Q = this !! Q)
  ∧ UsersService.get o2 (VNum P) = Some h2
  ∧ filter (λ e, e.1 = P) (map_to_list o2) = [(P, h2)].
Proof.
  simpl. unfold UsersService.on_connection.
  repeat split.
  - apply lookup_insert_eq.
  - apply map_to_list_at_key, lookup_insert_eq.
  - intros Q HQ. by rewrite !lookup_insert_ne.
  - apply lookup_insert_eq.
  - apply map_to_list_at_key, lookup_insert_eq.
Qed.

Lemma register_twice_replaces_witness :
  UserConnections.get
    (fst (UserConnections.add (fst (UserConnections.add registry_ABC 1 40 5)) 1 41 6))
    (VNum 1)
  = Some {| socket := 41; timestamp := 6; calls := [] |}
  ∧ UsersService.get
      (UsersService.on_connection (UsersService.on_connection online_A 1 40) 1 41) (VNum 1)
    = Some 41.
Proof.
  destruct (register_twice_replaces registry_ABC online_A 1 40 41 5 6)
    as (Hconn & Hget & _ & _ & Hget' & _).
  split; [|exact Hget'].
  rewrite <- Hconn. exact Hget.
Defined.

(** ** Idempotent removal *)

(** C6. Removing a principal that is not registered changes nothing and
    emits nothing, and a second [remove(P)] right after a first one changes
    nothing and emits nothing, whatever the first one did. *)
Theorem remove_idempotent (this : gmap Z UserConnection) (P : Z) :
  (this !! P = None → UserConnections.remove this P = (this, []))
  ∧ UserConnections.remove (fst (UserConnections.remove this P)) P
    = (fst (UserConnections.remove this P), []).
Proof.
  assert (∀ r : gmap Z UserConnection,
            r !! P = None → UserConnections.remove r P = (r, [])) as Habsent.
  { intros r Hr. unfold UserConnections.remove. by rewrite Hr. }
  split; [apply Habsent|].
  apply Habsent.
  destruct (this !! P) as [conn|] eqn:HP.
  - destruct (remove_registry this P conn HP) as [-> _].
    apply lookup_delete_eq.
  - by rewrite (Habsent this HP).
Qed.

Lemma remove_cleanup_cascade_witness :
  registry_ABC !! 1%Z = Some conn_A
  ∧ snd (UserConnections.remove registry_ABC 1)
    = [(20, callEnded 1 (VStr "REMOTE_ENDED")); (30, callEnded 1 (VStr "REMOTE_ENDED"))].
Proof.
  split; [vm_compute; reflexivity|].
  destruct (remove_cleanup_cascade registry_ABC 1 conn_A) as (_ & _ & _ & _ & Hout).
  - vm_compute; reflexivity.
  - rewrite Hout.
    + vm_compute; reflexivity.
    + simpl. apply NoDup_cons. split; [|apply NoDup_singleton].
      intros Hin. apply list_elem_of_singleton in Hin. discriminate Hin.
Defined.

Lemma remove_idempotent_witness :
  registry_AB !! 5%Z = None
  ∧ UserConnections.remove registry_AB 5 = (registry_AB, []).
Proof.
  split; [vm_compute; reflexivity|].
  destruct (remove_idempotent registry_AB 5) as [Habsent _].
  apply Habsent. vm_compute; reflexivity.
Defined.

(** ** Targeted signalling *)




(** Every event [endCall] emits names the ending principal. *)
Lemma endCall_from this P v :
  Forall (λ em : Emission, from_field em.2 = Some (VNum P))
         (snd (UserConnections.endCall this P v)).
Proof.
  unfold UserConnections.endCall.
  destruct (this !! P) as [c|]; simpl; [|constructor].
  destruct (JsMap.get_val v (calls c)) as [cd|]; simpl; [|constructor].
  destruct (UserConnections.get this (otherParticipantId cd)); repeat constructor.
Qed.

(** C9. Whatever payload the client sends, every event that [answerCall],
    [callCandidate] or [endCall] (with or without a call id) delivers has
    its [from] field equal to the sender's authenticated id; so two runs on
    arbitrary payloads deliver the same [from] values, and two payloads that
    agree on the fields a handler reads ([to] with [signal], [candidate], or
    [callId] and [reason]) give the same run. *)
Theorem relay_from_is_authenticated (this : gmap Z UserConnection) (uid : Z) (d1 d2 : JsVal) :
  let from_sender := Forall (λ f : option JsVal, f = Some (VNum uid)) in
  from_sender (froms (MessagesService.on_answerCall this uid d1))
  ∧ from_sender (froms (MessagesService.on_callCandidate this uid d1))
  ∧ from_sender (froms (MessagesService.on_endCall this uid d1))
  ∧ (∀ h, h ∈ [MessagesService.on_answerCall; MessagesService.on_callCandidate;
                MessagesService.on_endCall] →
       ∀ f1 f2, f1 ∈ froms (h this uid d1) → f2 ∈ froms (h this uid d2) → f1 = f2)
  ∧ ((∀ k, k ∈ ["to"; "signal"; "candidate"; "callId"; "reason"] →
         get_prop d1 k = get_prop d2 k) →
     MessagesService.on_answerCall this uid d1 = MessagesService.on_answerCall this uid d2
     ∧ MessagesService.on_callCandidate this uid d1
       = MessagesService.on_callCandidate this uid d2
     ∧ MessagesService.on_endCall this uid d1 = MessagesService.on_endCall this uid d2).
Proof.
  assert (∀ d, Forall (λ f : option JsVal, f = Some (VNum uid))
                 (froms (MessagesService.on_answerCall this uid d))) as Ha.
  { intros d. unfold MessagesService.on_answerCall.
    destruct (get_prop d "to") as [to|]; simpl; [|constructor].
    destruct (UserConnections.get this to); simpl; [|constructor].
    destruct (get_prop d "signal"); simpl; repeat constructor. }
  assert (∀ d, Forall (λ f : option JsVal, f = Some (VNum uid))
                 (froms (MessagesService.on_callCandidate this uid d))) as Hc.
  { intros d. unfold MessagesService.on_callCandidate.
    destruct (get_prop d "to") as [to|]; simpl; [|constructor].
    destruct (UserConnections.get this to); simpl; [|constructor].
    destruct (get_prop d "candidate"); simpl; repeat constructor. }
  assert (∀ d, Forall (λ f : option JsVal, f = Some (VNum uid))
                 (froms (MessagesService.on_endCall this uid d))) as He.
  { intros d. unfold MessagesService.on_endCall.
    destruct (get_prop d "callId") as [callId|]; simpl; [|constructor].
    destruct (truthy callId).
    - unfold froms. destruct (UserConnections.endCall this uid callId) as [r out] eqn:E.
      apply Forall_fmap. pose proof (endCall_from this uid callId) as H.
      rewrite E in H. exact H.
    - destruct (get_prop d "to") as [to|]; simpl; [|constructor].
      destruct (UserConnections.get this to); simpl; [|constructor].
      destruct (get_prop d "reason"); simpl; repeat constructor. }
  simpl. split; [apply Ha|]. split; [apply Hc|]. split; [apply He|]. split.
  - intros h Hh f1 f2 H1 H2.
    assert (∀ d f, f ∈ froms (h this uid d) → f = Some (VNum uid)) as Hall.
    { intros d f.
      apply (proj1 (Forall_forall (λ f : option JsVal, f = Some (VNum uid)) _)).
      repeat (apply elem_of_cons in Hh as [->|Hh]); auto.
      by apply elem_of_nil in Hh. }
    by rewrite (Hall d1 f1 H1), (Hall d2 f2 H2).
  - intros Hagree.
    unfold MessagesService.on_answerCall, MessagesService.on_callCandidate,
      MessagesService.on_endCall.
    pose proof (Hagree "to" ltac:(repeat constructor)) as Hto.
    pose proof (Hagree "signal" ltac:(repeat constructor)) as Hsignal.
    pose proof (Hagree "candidate" ltac:(repeat constructor)) as Hcandidate.
    pose proof (Hagree "callId" ltac:(repeat constructor)) as HcallId.
    pose proof (Hagree "reason" ltac:(repeat constructor)) as Hreason.
    by rewrite Hto, Hsignal, Hcandidate, HcallId, Hreason.
Qed.

Lemma relay_from_is_authenticated_witness :
  MessagesService.on_answerCall registry_AB 2 answer_as_1
  = MessagesService.on_answerCall registry_AB 2 answer_as_99
  ∧ froms (MessagesService.on_answerCall registry_AB 2 answer_as_99) = [Some (VNum 2)].
Proof.
  destruct (relay_from_is_authenticated registry_AB 2 answer_as_1 answer_as_99)
    as (_ & _ & _ & _ & Hagree).
  split; [|vm_compute; reflexivity].
  apply Hagree. intros k Hk.
  repeat (apply elem_of_cons in Hk as [->|Hk]); try reflexivity.
  by apply elem_of_nil in Hk.
Defined.

(** ** Call initiation *)

(** C2 (as the code has it). When the callee of a [callUser] is not in the
    registry and the callee field is a value the listener's debug line can
    interpolate, the handler returns normally with the registry unchanged,
    so no session is created; the messages service emits exactly one event,
    [callFailed] with error [USER_UNAVAILABLE], on the caller's own socket,
    and the users service emits nothing.  The debug line of the users
    service also passes the payload itself to [console.log], so there the
    payload is assumed to have no [toString] property of its own. *)
Theorem unreachable_callee (this : gmap Z UserConnection) (online : gmap Z SocketId)
    (sock : SocketId) (uid t_id t_start : Z) (data target : JsVal) :
  uncoercible target = false →
  (get_prop data "userToCall" = Some target →
   UserConnections.get this target = None →
   MessagesService.on_callUser this sock uid t_id t_start data
   = Some (this, [(sock, callFailed "USER_UNAVAILABLE" MessagesService.notConnected)]))
  ∧ (get_prop data "targetUserId" = Some target →
     UsersService.get online target = None →
     uncoercible data = false →
     UsersService.on_callUser online uid data = Some (online, [])).
Proof.
  intros Hco. split.
  - intros Hto Hget.
    unfold MessagesService.on_callUser. rewrite Hto. simpl. rewrite Hget.
    by rewrite (template_coercible _ Hco).
  - intros Hto Hget Hdata.
    unfold UsersService.on_callUser. rewrite Hto. simpl.
    rewrite (template_coercible _ Hco). simpl.
    rewrite (log_with_arg_safe _ _ Hdata). by rewrite Hget.
Qed.

Lemma unreachable_callee_witness :
  MessagesService.on_callUser (delete 2%Z registry_AB) 10 1 1000 1000 call_B
  = Some (delete 2%Z registry_AB,
          [(10, callFailed "USER_UNAVAILABLE" MessagesService.notConnected)])
  ∧ UsersService.on_callUser online_A 1 users_call_B = Some (online_A, []).
Proof.
  split.
  - apply (unreachable_callee (delete 2%Z registry_AB) online_A 10 1 1000 1000 call_B (VNum 2));
      vm_compute; reflexivity.
  - apply (unreachable_callee registry_AB online_A 10 1 1000 1000 users_call_B (VNum 2));
      vm_compute; reflexivity.
Defined.

(** In the users service the caller of an absent callee is told nothing:
    principal 2 is not online, principal 1 calls, and no event at all is
    emitted. *)
Lemma users_service_unreachable_callee_silent :
  UsersService.get online_A (VNum 2) = None
  ∧ UsersService.on_callUser online_A 1 users_call_B = Some (online_A, [])
  ∧ ¬ ∃ r out em, UsersService.on_callUser online_A 1 users_call_B = Some (r, out)
                  ∧ em ∈ out.
Proof.
  split; [vm_compute; reflexivity|]. split; [vm_compute; reflexivity|].
  intros (r & out & em & Hrun & Hem).
  assert (UsersService.on_callUser online_A 1 users_call_B = Some (online_A, [])) as Heq
    by (vm_compute; reflexivity).
  rewrite Heq in Hrun. injection Hrun as <- <-. by apply elem_of_nil in Hem.
Qed.

(** When the callee is registered, the [from] field of [callIncoming] is the
    [from] property of the client's payload. *)
Lemma callUser_reachable this sock uid t_id t_start fields target c :
  field "userToCall" fields = VNum target →
  this !! target = Some c →
  uncoercible (field "from" fields) = false →
  MessagesService.on_callUser this sock uid t_id t_start (VObj fields)
  = Some (UserConnections.addCall this uid
            (Z_to_string uid +:+ "-" +:+ Z_to_string target +:+ "-" +:+ Z_to_string t_id)
            {| otherParticipantId := VNum target;
               type := field "callType" fields;
               startTime := t_start |},
          [(socket c,
            callIncoming
              (Z_to_string uid +:+ "-" +:+ Z_to_string target +:+ "-" +:+ Z_to_string t_id)
              (field "signalData" fields) (field "from" fields)
              (field "callType" fields))]).
Proof.
  intros Hto Hc Hfrom. unfold MessagesService.on_callUser. simpl.
  rewrite Hto. simpl. rewrite Hc. by rewrite (template_coercible _ Hfrom).
Qed.

(** C4 (failing input). Principal 1 calls the registered principal 2 with a
    payload whose [from] is 99: the [callIncoming] event that 2 receives
    carries [from = 99], not the caller's identity 1; the users service on
    the same call sends [from = 1]. *)
Theorem callIncoming_from_is_client_supplied :
  snd <$> MessagesService.on_callUser registry_AB 10 1 1000 1000 spoofed_call
  = Some [(20, callIncoming "1-2-1000" (VStr "sdp1") (VNum 99) (VStr "video"))]
  ∧ froms (MessagesService.on_callUser registry_AB 10 1 1000 1000 spoofed_call)
    ≠ [Some (VNum 1)]
  ∧ snd <$> UsersService.on_callUser (<[2%Z := 8]> online_A) 1 users_call_B
    = Some [(8, UsersService.incomingCall 1 (VStr "sdp1"))].
Proof.
  split; [vm_compute; reflexivity|]. split; [|vm_compute; reflexivity].
  assert (froms (MessagesService.on_callUser registry_AB 10 1 1000 1000 spoofed_call)
          = [Some (VNum 99)]) as -> by (vm_compute; reflexivity).
  discriminate.
Qed.

(** ** Ending a call by its id *)

Lemma callId_truthy (a b c : string) : truthy (VStr (a +:+ "-" +:+ b +:+ "-" +:+ c)) = true.
Proof. by destruct a. Qed.

(** C3 (as the code has it). A calls the registered B with a payload whose
    [from] field the listener's debug line can interpolate, so that the call
    is initiated; B answers, and A
    sends [endCall] with the session's call id: B's socket is sent
    [callEnded] with [from = A] and reason [REMOTE_ENDED] (the constant
    [endCall] uses, whatever the payload's [reason]), and the session is no
    longer retrievable from A's call set; no other principal's entry
    changes along the way. *)
Theorem end_by_id_notifies_callee (this : gmap Z UserConnection) (A B : Z)
    (ca cb : UserConnection) (sockA : SocketId) (t_id t_start : Z)
    (call answer : list (string * JsVal)) (hangup : JsVal) :
  this !! A = Some ca →
  this !! B = Some cb →
  field "userToCall" call = VNum B →
  uncoercible (field "from" call) = false →
  field "to" answer = VNum A →
  let callId := Z_to_string A +:+ "-" +:+ Z_to_string B +:+ "-" +:+ Z_to_string t_id in
  get_prop hangup "callId" = Some (VStr callId) →
  ∃ this1 this3,
    MessagesService.on_callUser this sockA A t_id t_start (VObj call)
    = Some (this1, [(socket cb,
                     callIncoming callId (field "signalData" call) (field "from" call)
                       (field "callType" call))])
    ∧ (∃ c1, this1 !! A = Some c1 ∧ is_Some (JsMap.get callId (calls c1)))
    ∧ MessagesService.on_answerCall this1 B (VObj answer)
      = Some (this1, [(socket ca, callAnswered (field "signal" answer) B)])
    ∧ MessagesService.on_endCall this1 A hangup
      = Some (this3, [(socket cb, callEnded A (VStr "REMOTE_ENDED"))])
    ∧ (∃ c3, this3 !! A = Some c3 ∧ JsMap.get callId (calls c3) = None)
    ∧ ∀ Q, Q ≠ A → this3 !! Q = this !! Q.
Proof.
  intros HA HB Hcall Hfrom Hanswer callId Hhangup.
  set (cd := {| otherParticipantId := VNum B; type := field "callType" call;
                startTime := t_start |}).
  set (c1 := with_calls ca (JsMap.set callId cd (calls ca))).
  set (c3 := with_calls c1 (JsMap.delete callId (calls c1))).
  assert (UserConnections.addCall this A callId cd = <[A := c1]> this) as Hadd.
  { unfold UserConnections.addCall. by rewrite HA. }
  assert (∃ cb1, <[A := c1]> this !! B = Some cb1 ∧ socket cb1 = socket cb) as (cb1 & HB1 & Hsock).
  { destruct (decide (A = B)) as [<-|Hne].
    - exists c1. rewrite lookup_insert_eq. split; [done|]. simpl. congruence.
    - exists cb. by rewrite lookup_insert_ne. }
  exists (<[A := c1]> this), (<[A := c3]> this).
  split; [|split; [|split; [|split; [|split]]]].
  - rewrite (callUser_reachable this sockA A t_id t_start call B cb Hcall HB Hfrom).
    do 2 f_equal. exact Hadd.
  - exists c1. rewrite lookup_insert_eq. split; [done|].
    simpl. rewrite JsMap_get_set_eq. by eexists.
  - unfold MessagesService.on_answerCall. simpl. rewrite Hanswer. simpl.
    by rewrite lookup_insert_eq.
  - unfold MessagesService.on_endCall. rewrite Hhangup.
    cbn [mbind option_bind]. unfold callId at 1. rewrite callId_truthy.
    rewrite (endCall_found (<[A := c1]> this) A c1 callId cd).
    + unfold notified. simpl. rewrite HB1, Hsock. by rewrite insert_insert_eq.
    + apply lookup_insert_eq.
    + simpl. apply JsMap_get_set_eq.
  - exists c3. rewrite lookup_insert_eq. split; [done|].
    simpl. apply JsMap_get_delete_eq.
  - intros Q HQ. by rewrite lookup_insert_ne.
Qed.

Lemma end_by_id_notifies_callee_witness :
  ∃ this1 this3,
    MessagesService.on_callUser registry_AB 10 1 1000 1000 call_B
    = Some (this1, [(20, callIncoming "1-2-1000" (VStr "sdp1") (VNum 1) (VStr "video"))])
    ∧ MessagesService.on_endCall this1 1 end_by_id
      = Some (this3, [(20, callEnded 1 (VStr "REMOTE_ENDED"))]).
Proof.
  destruct (end_by_id_notifies_callee registry_AB 1 2
              {| socket := 10; timestamp := 0; calls := [] |} conn_B 10 1000 1000
              [("userToCall", VNum 2); ("signalData", VStr "sdp1"); ("from", VNum 1);
               ("callType", VStr "video")]
              [("to", VNum 1); ("signal", VStr "sdp2")] end_by_id)
    as (this1 & this3 & Hcall & _ & _ & Hend & _).
  - vm_compute; reflexivity.
  - vm_compute; reflexivity.
  - reflexivity.
  - reflexivity.
  - reflexivity.
  - vm_compute; reflexivity.
  - exists this1, this3. split; [exact Hcall | exact Hend].
Defined.

(** The end-to-end scenario run on the server: B (socket 1) is told
    [REMOTE_ENDED], and no [callEnded] with reason [NORMAL] is emitted. *)
Lemma scenario_end_reason_not_normal :
  snd <$> run init scenario
  = Some [(1, callIncoming "1-2-1000" (VStr "sdp1") (VNum 1) (VStr "video"));
          (0, callAnswered (VStr "sdp2") 2);
          (1, callEnded 1 (VStr "REMOTE_ENDED"))]
  ∧ ¬ ∃ s out, run init scenario = Some (s, out)
               ∧ (1, callEnded 1 (VStr "NORMAL")) ∈ out.
Proof.
  assert (snd <$> run init scenario
          = Some [(1, callIncoming "1-2-1000" (VStr "sdp1") (VNum 1) (VStr "video"));
                  (0, callAnswered (VStr "sdp2") 2);
                  (1, callEnded 1 (VStr "REMOTE_ENDED"))]) as Hrun
    by (vm_compute; reflexivity).
  split; [exact Hrun|].
  intros (s & out & Hs & Hin). rewrite Hs in Hrun. simpl in Hrun.
  injection Hrun as ->.
  repeat (apply elem_of_cons in Hin as [Hin|Hin]; [discriminate Hin|]).
  by apply elem_of_nil in Hin.
Qed.

(** ** Call ids name their caller *)

Lemma uint_dash_prefix_inj (d1 d2 : Decimal.uint) (r1 r2 : string) :
  NilEmpty.string_of_uint d1 +:+ String "-" r1
  = NilEmpty.string_of_uint d2 +:+ String "-" r2 →
  d1 = d2.
Proof.
  revert d2. induction d1; intros d2; destruct d2; simpl; intros H;
    try discriminate H; try reflexivity;
    injection H as H; f_equal; by apply IHd1.
Qed.

Lemma uint_no_leading_dash (d : Decimal.uint) (r1 r2 : string) :
  d ≠ Decimal.Nil →
  NilEmpty.string_of_uint d +:+ r1 ≠ String "-" r2.
Proof. destruct d; simpl; intros Hd H; [done | discriminate H ..]. Qed.

Lemma to_int_digits_nonnil (n : Z) :
  match Z.to_int n with Decimal.Pos d | Decimal.Neg d => d ≠ Decimal.Nil end.
Proof.
  destruct n; simpl; [discriminate | apply Unsigned.to_uint_nonnil ..].
Qed.

Lemma Z_to_string_dash_prefix_inj (a b : Z) (r1 r2 : string) :
  Z_to_string a +:+ "-" +:+ r1 = Z_to_string b +:+ "-" +:+ r2 → a = b.
Proof.
  unfold Z_to_string. intros H. apply DecimalZ.to_int_inj.
  pose proof (to_int_digits_nonnil a) as Ha.
  pose proof (to_int_digits_nonnil b) as Hb.
  destruct (Z.to_int a) as [da|da], (Z.to_int b) as [db|db]; simpl in H.
  - f_equal. by eapply uint_dash_prefix_inj.
  - exfalso. by eapply (uint_no_leading_dash da).
  - exfalso. symmetry in H. by eapply (uint_no_leading_dash db).
  - injection H as H. f_equal. by eapply uint_dash_prefix_inj.
Qed.

Lemma minted_by_inj (P Q : Z) (k : string) : minted_by P k → minted_by Q k → P = Q.
Proof.
  intros [r1 ->] [r2 H]. by eapply Z_to_string_dash_prefix_inj.
Qed.

Lemma minted_by_truthy (P : Z) (k : string) : minted_by P k → truthy (VStr k) = true.
Proof. intros [r ->]. unfold truthy. by destruct (Z_to_string P). Qed.

(** ** The invariant holds in every reachable state *)
Section Invariant.
Implicit Types (this : gmap Z UserConnection) (cl : gmap SocketId Z).

Lemma remove_registry_any this P : fst (UserConnections.remove this P) = delete P this.
Proof.
  destruct (this !! P) as [c|] eqn:HP.
  - by destruct (remove_registry this P c HP).
  - unfold UserConnections.remove. rewrite HP. simpl. by rewrite delete_id.
Qed.

Lemma addCall_ok cl this uid k cd :
  registry_ok cl this → minted_by uid k →
  registry_ok cl (UserConnections.addCall this uid k cd).
Proof.
  intros Hok Hk P c. unfold UserConnections.addCall.
  destruct (this !! uid) as [cu|] eqn:Hu; [|apply Hok].
  destruct (decide (uid = P)) as [<-|Hne].
  - rewrite lookup_insert_eq. intros [= <-].
    destruct (Hok uid cu Hu) as [Hsock Hkeys]. split; [done|]. simpl.
    intros k' cd'. destruct (decide (k = k')) as [<-|Hk'].
    + done.
    + rewrite JsMap_get_set_ne by done. apply Hkeys.
  - rewrite lookup_insert_ne by done. apply Hok.
Qed.

Lemma endCall_ok cl this uid v :
  registry_ok cl this → registry_ok cl (fst (UserConnections.endCall this uid v)).
Proof.
  intros Hok P c.
  destruct (this !! uid) as [cu|] eqn:Hu.
  - rewrite (endCall_registry this uid cu v Hu).
    destruct (decide (uid = P)) as [<-|Hne].
    + rewrite lookup_insert_eq. intros [= <-].
      destruct (Hok uid cu Hu) as [Hsock Hkeys]. split; [done|]. simpl.
      intros k' cd'. destruct v; simpl; try apply Hkeys.
      intros Hget. eapply Hkeys. by eapply JsMap_get_delete_Some.
    + rewrite lookup_insert_ne by done. apply Hok.
  - rewrite endCall_unregistered by done. apply Hok.
Qed.

Lemma on_callUser_ok cl this sock uid t_id t_start data r out :
  registry_ok cl this →
  MessagesService.on_callUser this sock uid t_id t_start data = Some (r, out) →
  registry_ok cl r.
Proof.
  intros Hok. unfold MessagesService.on_callUser.
  destruct (get_prop data "userToCall") as [to|]; simpl; [|done].
  destruct (UserConnections.get this to).
  - destruct (get_prop data "callType"); simpl; [|done].
    destruct (get_prop data "from"); simpl; [|done].
    case_templates.
    destruct (get_prop data "signalData"); simpl; [|done].
    intros [= <- <-]. apply addCall_ok; [done|].
    unfold minted_by. simpl. by eexists.
  - destruct (template to); simpl; [|done]. by intros [= <- <-].
Qed.

Lemma on_answerCall_registry this uid data r out :
  MessagesService.on_answerCall this uid data = Some (r, out) → r = this.
Proof.
  unfold MessagesService.on_answerCall.
  destruct (get_prop data "to") as [to|]; simpl; [|done].
  destruct (UserConnections.get this to); [|by intros [= <- <-]].
  destruct (get_prop data "signal"); simpl; [|done]. by intros [= <- <-].
Qed.

Lemma on_callCandidate_registry this uid data r out :
  MessagesService.on_callCandidate this uid data = Some (r, out) → r = this.
Proof.
  unfold MessagesService.on_callCandidate.
  destruct (get_prop data "to") as [to|]; simpl; [|done].
  destruct (UserConnections.get this to); [|by intros [= <- <-]].
  destruct (get_prop data "candidate"); simpl; [|done]. by intros [= <- <-].
Qed.

Lemma on_endCall_ok cl this uid data r out :
  registry_ok cl this →
  MessagesService.on_endCall this uid data = Some (r, out) →
  registry_ok cl r.
Proof.
  intros Hok. unfold MessagesService.on_endCall.
  destruct (get_prop data "callId") as [callId|]; simpl; [|done].
  destruct (truthy callId).
  - intros [= Hr]. apply (f_equal fst) in Hr. simpl in Hr. subst r.
    by apply endCall_ok.
  - destruct (get_prop data "to") as [to|]; simpl; [|done].
    destruct (UserConnections.get this to); [|by intros [= <- <-]].
    destruct (get_prop data "reason"); simpl; [|done]. by intros [= <- <-].
Qed.

Lemma handle_registry_ok s sock uid ev s' out :
  ev ≠ Disconnect →
  registry_ok (clients s) (connectedUsers s) →
  handle s sock uid ev = Some (s', out) →
  clients s' = clients s ∧ nextSocket s' = nextSocket s
  ∧ registry_ok (clients s) (connectedUsers s').
Proof.
  intros Hev Hok. destruct ev; simpl; try done.
  - intros [= <- <-]. split; [done|]. split; [done|]. exact Hok.
  - destruct (MessagesService.on_callUser _ _ _ _ _ _) as [[r o]|] eqn:E; simpl; [|done].
    intros [= <- <-]. simpl. split; [done|]. split; [done|].
    exact (on_callUser_ok _ _ _ _ _ _ _ _ _ Hok E).
  - destruct (MessagesService.on_answerCall _ _ _) as [[r o]|] eqn:E; simpl; [|done].
    intros [= <- <-]. simpl. split; [done|]. split; [done|].
    by rewrite (on_answerCall_registry _ _ _ _ _ E).
  - destruct (MessagesService.on_callCandidate _ _ _) as [[r o]|] eqn:E; simpl; [|done].
    intros [= <- <-]. simpl. split; [done|]. split; [done|].
    by rewrite (on_callCandidate_registry _ _ _ _ _ E).
  - destruct (MessagesService.on_endCall _ _ _) as [[r o]|] eqn:E; simpl; [|done].
    intros [= <- <-]. simpl. split; [done|]. split; [done|].
    exact (on_endCall_ok _ _ _ _ _ _ Hok E).
  - intros [= <- <-]. simpl. split; [done|]. split; [done|].
    rewrite remove_registry_any. intros P c HP.
    apply lookup_delete_Some in HP as [_ HP]. by apply Hok.
Qed.

Lemma step_inv s i s' out : server_inv s → step s i = Some (s', out) → server_inv s'.
Proof.
  intros [Hok Hfresh]. destruct i as [uid now|sock ev]; simpl.
  - intros [= <- <-]. split; simpl.
    + intros P c. destruct (decide (uid = P)) as [<-|Hne].
      * rewrite lookup_insert_eq. intros [= <-]. split; simpl.
        -- apply lookup_insert_eq.
        -- done.
      * rewrite lookup_insert_ne by done. intros HP.
        destruct (Hok P c HP) as [Hsock Hkeys]. split; [|done].
        rewrite lookup_insert_ne; [done|].
        intros Heq. rewrite <- Heq in Hsock.
        assert (nextSocket s < nextSocket s) by (apply Hfresh; by eexists). lia.
    + intros sk [u Hsk]. destruct (decide (nextSocket s = sk)) as [<-|Hne]; [lia|].
      rewrite lookup_insert_ne in Hsk by done.
      assert (sk < nextSocket s) by (apply Hfresh; by eexists). lia.
  - destruct (clients s !! sock) as [uid|] eqn:Hsock; [|by intros [= <- <-]].
    assert (ev = Disconnect ∨ ev ≠ Disconnect) as [->|Hev]
      by (destruct ev; auto; right; discriminate).
    + simpl. intros [= <- <-]. split; simpl.
      * rewrite remove_registry_any. intros P c HP.
        apply lookup_delete_Some in HP as [HneP HP].
        destruct (Hok P c HP) as [Hc Hkeys]. split; [|done].
        rewrite lookup_delete_ne; [done|].
        intros Heq. rewrite <- Heq in Hc. congruence.
      * intros sk Hsk. apply Hfresh.
        destruct Hsk as [u Hsk]. apply lookup_delete_Some in Hsk as [_ Hsk]. by eexists.
    + intros Hh. destruct (handle_registry_ok _ _ _ _ _ _ Hev Hok Hh) as (Hcl & Hnext & Hr).
      split.
      * by rewrite Hcl.
      * by rewrite Hcl, Hnext.
Qed.

Lemma reachable_inv s : reachable s → server_inv s.
Proof.
  induction 1 as [|s i s' out _ IH Hstep].
  - split; simpl.
    + intros P c HP. by rewrite lookup_empty in HP.
    + intros sk [u Hsk]. by rewrite lookup_empty in Hsk.
  - by eapply step_inv.
Qed.
End Invariant.

Lemma run_reachable (s : Server) (inputs : list Input) (s' : Server) (out : list Emission) :
  reachable s → run s inputs = Some (s', out) → reachable s'.
Proof.
  revert s out. induction inputs as [|i inputs IH]; intros s out Hs; simpl.
  - by intros [= <- _].
  - destruct (step s i) as [[s1 out1]|] eqn:Hstep; simpl; [|done].
    destruct (run s1 inputs) as [[s2 out2]|] eqn:Hrun; simpl; [|done].
    intros [= <- _]. eapply IH; [|exact Hrun]. by eapply reachable_step.
Qed.

Lemma three_online_reachable : reachable three_online.
Proof.
  apply (run_reachable init [Connect 1 0; Connect 2 0; Connect 3 0] _ []).
  - constructor.
  - vm_compute; reflexivity.
Defined.

Lemma one_calling_two_reachable : reachable one_calling_two.
Proof.
  apply (run_reachable three_online [Recv 0 (RecvCallUser 1000 1000 call_B)] _
           [(1, callIncoming "1-2-1000" (VStr "sdp1") (VNum 1) (VStr "video"))]).
  - apply three_online_reachable.
  - vm_compute; reflexivity.
Defined.

(** ** Broadcast *)

(** C7. In every reachable state, a [sendMessage] from a connected socket
    is handled without changing the state, and the [newMessage] it carries
    is emitted on the socket of every registered connection other than the
    sender's (in particular on that of every other registered principal),
    never on the sender's socket; nothing but that [newMessage] is emitted,
    and no socket gets it twice. *)
Theorem broadcast_excludes_sender (s : Server) (sock : SocketId) (A : Z) (message : JsVal) :
  reachable s →
  clients s !! sock = Some A →
  ∃ out,
    step s (Recv sock (RecvSendMessage message)) = Some (s, out)
    ∧ (∀ P c, connectedUsers s !! P = Some c → socket c ≠ sock →
              (socket c, newMessage message) ∈ out)
    ∧ (∀ P c, connectedUsers s !! P = Some c → P ≠ A →
              (socket c, newMessage message) ∈ out)
    ∧ (∀ e, (sock, e) ∉ out)
    ∧ (∀ em, em ∈ out → em.2 = newMessage message)
    ∧ NoDup out.
Proof.
  intros Hreach Hsock. destruct (reachable_inv s Hreach) as [Hok _].
  exists (broadcast (clients s) sock (newMessage message)).
  assert (∀ P c, connectedUsers s !! P = Some c → socket c ≠ sock →
            (socket c, newMessage message) ∈ broadcast (clients s) sock (newMessage message))
    as Hall.
  { intros P c HP Hne. destruct (Hok P c HP) as [Hc _].
    unfold broadcast. apply list_elem_of_fmap. exists (socket c). split; [done|].
    apply elem_of_elements, elem_of_difference. split.
    - apply elem_of_dom. by eexists.
    - intros Hin. apply elem_of_singleton in Hin. by apply Hne. }
  split; [|split; [|split; [|split; [|split]]]].
  - simpl. by rewrite Hsock.
  - exact Hall.
  - intros P c HP Hne. apply (Hall P c HP).
    intros Heq. destruct (Hok P c HP) as [Hc _]. rewrite Heq in Hc. congruence.
  - intros e Hin. unfold broadcast in Hin.
    apply list_elem_of_fmap in Hin as (sk & [= <- _] & Hin).
    apply elem_of_elements, elem_of_difference in Hin as [_ Hin].
    apply Hin. by apply elem_of_singleton.
  - intros em Hin. unfold broadcast in Hin.
    by apply list_elem_of_fmap in Hin as (sk & -> & _).
  - unfold broadcast. apply NoDup_fmap_2; [|apply NoDup_elements].
    by intros x y [= ->].
Qed.

Lemma broadcast_excludes_sender_witness :
  ∃ out,
    step three_online (Recv 0 (RecvSendMessage (VStr "hello"))) = Some (three_online, out)
    ∧ (1, newMessage (VStr "hello")) ∈ out
    ∧ (2, newMessage (VStr "hello")) ∈ out
    ∧ (0, newMessage (VStr "hello")) ∉ out.
Proof.
  destruct (broadcast_excludes_sender three_online 0 1 (VStr "hello"))
    as (out & Hstep & Hothers & _ & Hself & _).
  - apply three_online_reachable.
  - vm_compute; reflexivity.
  - exists out. split; [exact Hstep|]. split; [|split].
    + apply (Hothers 2%Z {| socket := 1; timestamp := 0; calls := [] |}).
      * vm_compute; reflexivity.
      * simpl. lia.
    + apply (Hothers 3%Z {| socket := 2; timestamp := 0; calls := [] |}).
      * vm_compute; reflexivity.
      * simpl. lia.
    + apply Hself.
Defined.

(** ** Ending a call one does not hold *)

(** C10. [endCall(U, C)] rewrites no entry but [U]'s, and when [C] is not
    a key of [U]'s own call set (or [U] is not registered) it changes
    nothing and emits nothing.  In every reachable state a call id stored
    under principal [A] is a key of no other principal's call set, so
    [endCall(B, C)] for [B ≠ A] (the callee, say) is such a no-op, and so is
    the [endCall] event of a socket of [B] carrying that id: the session
    stays under [A] and nobody is notified. *)
Theorem endCall_only_own_sessions (this : gmap Z UserConnection) (U : Z) (v : JsVal)
    (s : Server) (A B : Z) (ca : UserConnection) (k : string) (cd : CallData)
    (sockB : SocketId) (data : JsVal) :
  (∀ Q, Q ≠ U → fst (UserConnections.endCall this U v) !! Q = this !! Q)
  ∧ (∀ cu, this !! U = Some cu → JsMap.get_val v (calls cu) = None →
           UserConnections.endCall this U v = (this, []))
  ∧ (this !! U = None → UserConnections.endCall this U v = (this, []))
  ∧ (reachable s →
     connectedUsers s !! A = Some ca →
     JsMap.get k (calls ca) = Some cd →
     B ≠ A →
     UserConnections.endCall (connectedUsers s) B (VStr k) = (connectedUsers s, [])
     ∧ (clients s !! sockB = Some B →
        get_prop data "callId" = Some (VStr k) →
        step s (Recv sockB (RecvEndCall data)) = Some (s, []))).
Proof.
  split; [|split; [|split]].
  - intros Q HQ. destruct (this !! U) as [cu|] eqn:HU.
    + rewrite (endCall_registry this U cu v HU). by rewrite lookup_insert_ne.
    + by rewrite endCall_unregistered.
  - intros cu HU Hv. unfold UserConnections.endCall. by rewrite HU, Hv.
  - apply endCall_unregistered.
  - intros Hreach HA Hk HBA.
    destruct (reachable_inv s Hreach) as [Hok _].
    destruct (Hok A ca HA) as [_ HkeysA].
    assert (UserConnections.endCall (connectedUsers s) B (VStr k) = (connectedUsers s, []))
      as Hnoop.
    { destruct (connectedUsers s !! B) as [cb|] eqn:HB.
      - apply (endCall_absent _ _ cb); [done|].
        destruct (JsMap.get k (calls cb)) as [cd'|] eqn:Hkb; [|done].
        destruct (Hok B cb HB) as [_ HkeysB]. exfalso. apply HBA.
        eapply minted_by_inj; eauto.
      - by apply endCall_unregistered. }
    split; [exact Hnoop|].
    intros HsockB Hdata. simpl. rewrite HsockB. simpl.
    unfold MessagesService.on_endCall. rewrite Hdata.
    cbn [mbind option_bind].
    rewrite (minted_by_truthy A k) by eauto.
    rewrite Hnoop. simpl. unfold with_users. simpl. by destruct s.
Qed.

Lemma endCall_only_own_sessions_witness :
  UserConnections.endCall (connectedUsers one_calling_two) 2 (VStr "1-2-1000")
  = (connectedUsers one_calling_two, [])
  ∧ step one_calling_two (Recv 1 (RecvEndCall end_by_id)) = Some (one_calling_two, []).
Proof.
  destruct (endCall_only_own_sessions ∅ 0 VUndef one_calling_two 1 2
              {| socket := 0; timestamp := 0;
                 calls := [("1-2-1000",
                            {| otherParticipantId := VNum 2; type := VStr "video";
                               startTime := 1000 |})] |}
              "1-2-1000"
              {| otherParticipantId := VNum 2; type := VStr "video"; startTime := 1000 |}
              1 end_by_id) as (_ & _ & _ & Hreach).
  destruct Hreach as [Hnoop Hstep].
  - apply one_calling_two_reachable.
  - vm_compute; reflexivity.
  - vm_compute; reflexivity.
  - lia.
  - split; [exact Hnoop|]. apply Hstep; vm_compute; reflexivity.
Defined.

(** * Further properties of the messages service *)

(** ** Call ids determine caller, callee and time *)

Lemma append_prefix_inj (p a b : string) : p +:+ a = p +:+ b → a = b.
Proof. induction p as [|c p IH]; simpl; [done|]. intros [= H]. by apply IH. Qed.

Lemma Z_to_string_inj (a b : Z) : Z_to_string a = Z_to_string b → a = b.
Proof.
  unfold Z_to_string. intros H. apply DecimalZ.to_int_inj.
  assert (Some (Z.to_int a) = Some (Z.to_int b)) as [= ->]; [|done].
  by rewrite <- !NilEmpty.isi, H.
Qed.

Lemma callId_of_inj (a b t a' b' t' : Z) :
  callId_of a b t = callId_of a' b' t' → a = a' ∧ b = b' ∧ t = t'.
Proof.
  unfold callId_of. simpl. intros H.
  assert (a = a') as <- by (by eapply Z_to_string_dash_prefix_inj).
  apply append_prefix_inj, (append_prefix_inj "-") in H.
  assert (b = b') as <- by (by eapply Z_to_string_dash_prefix_inj).
  apply append_prefix_inj, (append_prefix_inj "-") in H.
  by apply Z_to_string_inj in H.
Qed.

Lemma callId_of_minted (a b t : Z) : minted_by a (callId_of a b t).
Proof. unfold minted_by, callId_of. simpl. by eexists. Qed.

(** X3. Two call ids minted by [callUser] are equal only when caller,
    callee and clock reading are all equal: calls to different callees, or
    at different milliseconds, never share an id. *)
Theorem callId_determines_call (a b t a' b' t' : Z) :
  callId_of a b t = callId_of a' b' t' ↔ a = a' ∧ b = b' ∧ t = t'.
Proof.
  split.
  - apply callId_of_inj.
  - by intros (-> & -> & ->).
Qed.

Lemma callId_determines_call_witness :
  callId_of 1 2 1000 = "1-2-1000" ∧ (1 = 1 ∧ 2 = 2 ∧ 1000 = 1000)%Z.
Proof.
  split; [vm_compute; reflexivity|].
  apply (callId_determines_call 1 2 1000 1 2 1000). reflexivity.
Defined.

(** ** Call sets stay well formed *)
Section CallSetFacts.
Context {V : Type}.
Implicit Types (m : list (string * V)) (k : string) (v : V).

Lemma JsMap_set_keys m k v x : x ∈ (JsMap.set k v m).*1 → x = k ∨ x ∈ m.*1.
Proof.
  induction m as [|[k' v'] m IH]; simpl.
  - intros Hx. apply list_elem_of_singleton in Hx. by left.
  - destruct (String.eqb k k') eqn:E; simpl; [by right|].
    intros Hx. apply elem_of_cons in Hx as [->|Hx].
    + right. apply list_elem_of_here.
    + destruct (IH Hx) as [->|Hin]; [by left|]. right. by apply list_elem_of_further.
Qed.

Lemma JsMap_set_NoDup m k v : NoDup m.*1 → NoDup (JsMap.set k v m).*1.
Proof.
  induction m as [|[k' v'] m IH]; simpl; intros Hnd.
  - apply NoDup_singleton.
  - apply NoDup_cons in Hnd as [Hk' Hnd].
    destruct (String.eqb k k') eqn:E; simpl.
    + by apply NoDup_cons.
    + apply NoDup_cons. split; [|by apply IH].
      intros Hin. apply JsMap_set_keys in Hin as [->|Hin]; [|done].
      by rewrite String.eqb_refl in E.
Qed.

Lemma JsMap_set_Forall (Q : string * V → Prop) m k v :
  Forall Q m → Q (k, v) → Forall Q (JsMap.set k v m).
Proof.
  intros Hm Hkv. induction m as [|[k' v'] m IH]; simpl.
  - by repeat constructor.
  - apply Forall_cons in Hm as [Hhd Hm].
    destruct (String.eqb k k') eqn:E.
    + apply String.eqb_eq in E. subst k'. by constructor.
    + constructor; [done|]. by apply IH.
Qed.

Lemma JsMap_set_length m k v :
  length (JsMap.set k v m)
  = match JsMap.get k m with Some _ => length m | None => S (length m) end.
Proof.
  induction m as [|[k' v'] m IH]; simpl; [done|].
  destruct (String.eqb k k'); simpl; [done|].
  rewrite IH. by destruct (JsMap.get k m).
Qed.

Lemma JsMap_delete_elem m k e : e ∈ JsMap.delete k m → e ∈ m.
Proof.
  induction m as [|[k' v'] m IH]; simpl; [done|].
  destruct (String.eqb k k').
  - intros He. apply list_elem_of_further. by apply IH.
  - intros He. apply elem_of_cons in He as [->|He].
    + apply list_elem_of_here.
    + apply list_elem_of_further. by apply IH.
Qed.

Lemma JsMap_delete_NoDup m k : NoDup m.*1 → NoDup (JsMap.delete k m).*1.
Proof.
  induction m as [|[k' v'] m IH]; simpl; intros Hnd; [done|].
  apply NoDup_cons in Hnd as [Hk' Hnd].
  destruct (String.eqb k k'); simpl; [by apply IH|].
  apply NoDup_cons. split; [|by apply IH].
  intros Hin. apply Hk'.
  apply list_elem_of_fmap in Hin as ([k0 v0] & -> & Hin).
  apply list_elem_of_fmap. exists (k0, v0). split; [done|].
  by eapply JsMap_delete_elem.
Qed.

Lemma JsMap_delete_Forall (Q : string * V → Prop) m k :
  Forall Q m → Forall Q (JsMap.delete k m).
Proof.
  intros Hm. apply Forall_forall. intros e He.
  apply JsMap_delete_elem in He. by eapply (proj1 (Forall_forall Q m) Hm).
Qed.

Lemma JsMap_get_Some_elem m k v : JsMap.get k m = Some v → (k, v) ∈ m.
Proof.
  induction m as [|[k' v'] m IH]; simpl; [done|].
  destruct (String.eqb k k') eqn:E.
  - apply String.eqb_eq in E. subst k'. intros [= ->]. apply list_elem_of_here.
  - intros H. apply list_elem_of_further. by apply IH.
Qed.
End CallSetFacts.

Section WellFormed.
Implicit Types (this : gmap Z UserConnection).

Lemma addCall_wf this uid k cd :
  registry_wf this → session_ok uid (k, cd) →
  registry_wf (UserConnections.addCall this uid k cd).
Proof.
  intros Hwf Hk P c. unfold UserConnections.addCall.
  destruct (this !! uid) as [cu|] eqn:Hu; [|apply Hwf].
  destruct (decide (uid = P)) as [<-|Hne].
  - rewrite lookup_insert_eq. intros [= <-].
    destruct (Hwf uid cu Hu) as [Hnd Hall]. split; simpl.
    + by apply JsMap_set_NoDup.
    + by apply JsMap_set_Forall.
  - rewrite lookup_insert_ne by done. apply Hwf.
Qed.

Lemma endCall_wf this uid v :
  registry_wf this → registry_wf (fst (UserConnections.endCall this uid v)).
Proof.
  intros Hwf P c.
  destruct (this !! uid) as [cu|] eqn:Hu.
  - rewrite (endCall_registry this uid cu v Hu).
    destruct (decide (uid = P)) as [<-|Hne].
    + rewrite lookup_insert_eq. intros [= <-].
      destruct (Hwf uid cu Hu) as [Hnd Hall].
      destruct v; simpl; try (by split).
      split; simpl; [by apply JsMap_delete_NoDup | by apply JsMap_delete_Forall].
    + rewrite lookup_insert_ne by done. apply Hwf.
  - rewrite endCall_unregistered by done. apply Hwf.
Qed.

Lemma get_Some_num this v c :
  UserConnections.get this v = Some c → ∃ t, v = VNum t ∧ this !! t = Some c.
Proof. destruct v; simpl; try done. intros H. by eexists. Qed.

Lemma on_callUser_wf this sock uid t_id t_start data r out :
  registry_wf this →
  MessagesService.on_callUser this sock uid t_id t_start data = Some (r, out) →
  registry_wf r.
Proof.
  intros Hwf. unfold MessagesService.on_callUser.
  destruct (get_prop data "userToCall") as [to|]; simpl; [|done].
  destruct (UserConnections.get this to) as [tc|] eqn:Hto.
  - apply get_Some_num in Hto as (t & -> & _).
    destruct (get_prop data "callType"); simpl; [|done].
    destruct (get_prop data "from"); simpl; [|done].
    case_templates.
    destruct (get_prop data "signalData"); simpl; [|done].
    intros [= <- <-]. apply addCall_wf; [done|]. by exists t, t_id.
  - destruct (template to); simpl; [|done]. by intros [= <- <-].
Qed.

Lemma on_endCall_wf this uid data r out :
  registry_wf this →
  MessagesService.on_endCall this uid data = Some (r, out) →
  registry_wf r.
Proof.
  intros Hwf. unfold MessagesService.on_endCall.
  destruct (get_prop data "callId") as [callId|]; simpl; [|done].
  destruct (truthy callId).
  - intros [= Hr]. apply (f_equal fst) in Hr. simpl in Hr. subst r.
    by apply endCall_wf.
  - destruct (get_prop data "to") as [to|]; simpl; [|done].
    destruct (UserConnections.get this to); [|by intros [= <- <-]].
    destruct (get_prop data "reason"); simpl; [|done]. by intros [= <- <-].
Qed.

Lemma delete_wf this P : registry_wf this → registry_wf (delete P this).
Proof.
  intros Hwf Q c HQ. apply lookup_delete_Some in HQ as [_ HQ]. by apply Hwf.
Qed.

Lemma step_wf s i s' out :
  registry_wf (connectedUsers s) → step s i = Some (s', out) →
  registry_wf (connectedUsers s').
Proof.
  intros Hwf. destruct i as [uid now|sock ev]; simpl.
  - intros [= <- <-]. simpl. intros P c.
    destruct (decide (uid = P)) as [<-|Hne].
    + rewrite lookup_insert_eq. intros [= <-]. split; simpl; constructor.
    + rewrite lookup_insert_ne by done. apply Hwf.
  - destruct (clients s !! sock) as [uid|]; [|by intros [= <- <-]].
    destruct ev; simpl.
    + by intros [= <- <-].
    + destruct (MessagesService.on_callUser _ _ _ _ _ _) as [[r o]|] eqn:E; simpl; [|done].
      intros [= <- <-]. simpl. by eapply on_callUser_wf.
    + destruct (MessagesService.on_answerCall _ _ _) as [[r o]|] eqn:E; simpl; [|done].
      intros [= <- <-]. simpl. by rewrite (on_answerCall_registry _ _ _ _ _ E).
    + destruct (MessagesService.on_callCandidate _ _ _) as [[r o]|] eqn:E; simpl; [|done].
      intros [= <- <-]. simpl. by rewrite (on_callCandidate_registry _ _ _ _ _ E).
    + destruct (MessagesService.on_endCall _ _ _) as [[r o]|] eqn:E; simpl; [|done].
      intros [= <- <-]. simpl. by eapply on_endCall_wf.
    + intros [= <- <-]. simpl. rewrite remove_registry_any. by apply delete_wf.
    + intros [= <- <-]. simpl. rewrite remove_registry_any. by apply delete_wf.
Qed.

Lemma reachable_wf s : reachable s → registry_wf (connectedUsers s).
Proof.
  induction 1 as [|s i s' out _ IH Hstep].
  - intros P c HP. simpl in HP. by rewrite lookup_empty in HP.
  - by eapply step_wf.
Qed.
End WellFormed.

(** X1. In every reachable state, the connection registered under [P]
    holds a connected socket authenticated as [P]; the keys of its call set
    are distinct, so [get] retrieves exactly the stored entries; and every
    stored session is keyed by the id minted for a call from [P] to the
    principal it names as counterpart. *)
Theorem reachable_call_sets_wellformed (s : Server) (P : Z) (c : UserConnection) :
  reachable s →
  connectedUsers s !! P = Some c →
  clients s !! socket c = Some P
  ∧ NoDup (calls c).*1
  ∧ (∀ k cd, JsMap.get k (calls c) = Some cd ↔ (k, cd) ∈ calls c)
  ∧ (∀ k cd, (k, cd) ∈ calls c →
       ∃ target t_id, k = callId_of P target t_id ∧ otherParticipantId cd = VNum target).
Proof.
  intros Hreach HP.
  destruct (reachable_inv s Hreach) as [Hok _]. destruct (Hok P c HP) as [Hsock _].
  destruct (reachable_wf s Hreach P c HP) as [Hnd Hall].
  split; [done|]. split; [done|]. split.
  - intros k cd. split; [apply JsMap_get_Some_elem | by apply JsMap_get_NoDup].
  - intros k cd Hin. by apply (proj1 (Forall_forall _ _) Hall (k, cd)).
Qed.

Lemma reachable_call_sets_wellformed_witness :
  clients one_calling_two !! 0 = Some 1%Z
  ∧ ∃ target t_id, "1-2-1000" = callId_of 1 target t_id ∧ VNum 2 = VNum target.
Proof.
  destruct (reachable_call_sets_wellformed one_calling_two 1
              {| socket := 0; timestamp := 0;
                 calls := [("1-2-1000",
                            {| otherParticipantId := VNum 2; type := VStr "video";
                               startTime := 1000 |})] |})
    as (Hsock & _ & _ & Hsess).
  - apply one_calling_two_reachable.
  - vm_compute; reflexivity.
  - split; [exact Hsock|].
    apply (Hsess "1-2-1000"
             {| otherParticipantId := VNum 2; type := VStr "video"; startTime := 1000 |}).
    apply list_elem_of_here.
Defined.

(** ** Disconnection on the running server *)

Lemma with_users_same (s : Server) (out : list Emission) :
  with_users s (connectedUsers s, out) = (s, out).
Proof. unfold with_users. simpl. by destruct s. Qed.

Lemma remove_exact (this : gmap Z UserConnection) (P : Z) :
  registry_wf this →
  UserConnections.remove this P
  = (delete P this,
     match this !! P with
     | Some c => flat_map (λ e, notified this P e.2) (calls c)
     | None => []
     end).
Proof.
  intros Hwf. destruct (this !! P) as [c|] eqn:HP.
  - destruct (remove_registry this P c HP) as [Hfst Hsnd].
    destruct (Hwf P c HP) as [Hnd _].
    rewrite (surjective_pairing (UserConnections.remove this P)), Hfst, Hsnd.
    f_equal. rewrite (cascade_exact P _ _ c); try done.
    intros k cd Hin. by apply JsMap_get_NoDup.
  - unfold UserConnections.remove. rewrite HP. by rewrite delete_id.
Qed.

Lemma notified_length (this : gmap Z UserConnection) (P : Z) (l : list (string * CallData)) :
  length (flat_map (λ e, notified this P e.2) l) ≤ length l.
Proof.
  induction l as [|e l IH]; simpl; [done|].
  rewrite length_app. unfold notified at 1.
  destruct (UserConnections.get this (otherParticipantId e.2)); simpl; lia.
Qed.

(** X2. In every reachable state, when a connected socket of principal [P]
    disconnects or raises [error], [P] is removed from the registry and the
    events emitted are exactly one [callEnded] per session of [P] whose
    counterpart is registered, in the order the sessions were stored (none
    when [P] is not registered); the socket leaves the namespace on
    [disconnect] and stays connected on [error]. *)
Theorem disconnect_cascade (s : Server) (sock : SocketId) (P : Z) :
  reachable s →
  clients s !! sock = Some P →
  let out := match connectedUsers s !! P with
             | Some c => flat_map (λ e, notified (connectedUsers s) P e.2) (calls c)
             | None => []
             end in
  step s (Recv sock Disconnect) = Some (after_disconnect s sock P, out)
  ∧ step s (Recv sock SocketError) = Some (after_error s P, out)
  ∧ length out ≤ match connectedUsers s !! P with
                 | Some c => length (calls c)
                 | None => 0
                 end.
Proof.
  intros Hreach Hsock out. subst out.
  pose proof (remove_exact (connectedUsers s) P (reachable_wf s Hreach)) as Hrm.
  split; [|split].
  - simpl. rewrite Hsock. simpl. by rewrite Hrm.
  - simpl. rewrite Hsock. simpl. by rewrite Hrm.
  - destruct (connectedUsers s !! P); [apply notified_length | done].
Qed.

Lemma disconnect_cascade_witness :
  step one_calling_two (Recv 0 Disconnect)
  = Some (after_disconnect one_calling_two 0 1, [(1, callEnded 1 (VStr "REMOTE_ENDED"))]).
Proof.
  destruct (disconnect_cascade one_calling_two 0 1) as (Hstep & _ & _).
  - apply one_calling_two_reachable.
  - vm_compute; reflexivity.
  - rewrite Hstep. vm_compute; reflexivity.
Defined.

(** X10. A principal has one registry slot but may hold several sockets.
    In every reachable state, when a socket of [P] other than the registered
    one disconnects, the registered connection is the one removed: its
    socket is still connected as [P], yet [P] is no longer registered, and a
    [callUser] addressed to [P] is answered with [callFailed]. *)
Theorem superseded_disconnect_unregisters (s : Server) (old : SocketId) (P : Z)
    (c : UserConnection) :
  reachable s →
  clients s !! old = Some P →
  connectedUsers s !! P = Some c →
  socket c ≠ old →
  ∃ out,
    step s (Recv old Disconnect) = Some (after_disconnect s old P, out)
    ∧ clients (after_disconnect s old P) !! socket c = Some P
    ∧ connectedUsers (after_disconnect s old P) !! P = None
    ∧ ∀ sock uid t_id t_start data,
        get_prop data "userToCall" = Some (VNum P) →
        MessagesService.on_callUser (connectedUsers (after_disconnect s old P))
          sock uid t_id t_start data
        = Some (connectedUsers (after_disconnect s old P),
                [(sock, callFailed "USER_UNAVAILABLE" MessagesService.notConnected)]).
Proof.
  intros Hreach Hold HP Hne.
  destruct (reachable_inv s Hreach) as [Hok _]. destruct (Hok P c HP) as [Hsock _].
  pose proof (remove_exact (connectedUsers s) P (reachable_wf s Hreach)) as Hrm.
  eexists. split; [|split; [|split]].
  - simpl. rewrite Hold. simpl. by rewrite Hrm.
  - simpl. by rewrite lookup_delete_ne.
  - simpl. apply lookup_delete_eq.
  - intros sock uid t_id t_start data Hto.
    unfold MessagesService.on_callUser. rewrite Hto. simpl.
    by rewrite lookup_delete_eq.
Qed.

Lemma superseded_disconnect_unregisters_witness :
  clients (after_disconnect reconnected 0 1) !! 1 = Some 1%Z
  ∧ connectedUsers (after_disconnect reconnected 0 1) !! 1%Z = None.
Proof.
  destruct (superseded_disconnect_unregisters reconnected 0 1
              {| socket := 1; timestamp := 5; calls := [] |})
    as (out & _ & Hconn & Hreg & _).
  - apply (run_reachable init [Connect 1 3; Connect 1 5; Connect 2 7] _ []).
    + apply reachable_init.
    + vm_compute; reflexivity.
  - vm_compute; reflexivity.
  - vm_compute; reflexivity.
  - simpl. lia.
  - split; [exact Hconn | exact Hreg].
Defined.

(** ** Where events go *)
Section Targets.
Implicit Types (this : gmap Z UserConnection) (out : list Emission).

Lemma notified_target this P cd em sock :
  em ∈ notified this P cd → own_or_registered this sock em.1.
Proof.
  unfold notified.
  destruct (UserConnections.get this (otherParticipantId cd)) as [o|] eqn:Ho.
  - intros ->%list_elem_of_singleton. apply get_Some_num in Ho as (t & _ & Ht).
    right. by exists t, o.
  - intros H. by apply elem_of_nil in H.
Qed.

Lemma endCall_target this P v em sock :
  em ∈ snd (UserConnections.endCall this P v) → own_or_registered this sock em.1.
Proof.
  unfold UserConnections.endCall.
  destruct (this !! P) as [c|]; simpl; [|by intros H%elem_of_nil].
  destruct (JsMap.get_val v (calls c)) as [cd|]; simpl; [|by intros H%elem_of_nil].
  apply notified_target.
Qed.

Lemma remove_target this P em sock :
  em ∈ snd (UserConnections.remove this P) → own_or_registered this sock em.1.
Proof.
  destruct (this !! P) as [c|] eqn:HP.
  - destruct (remove_registry this P c HP) as [_ ->]. intros Hem.
    apply (cascade_sound P _ _ c) in Hem; [|done].
    destruct Hem as [Hem|(k & cd & _ & Hem)]; [by apply elem_of_nil in Hem|].
    by eapply notified_target.
  - unfold UserConnections.remove. rewrite HP. by intros H%elem_of_nil.
Qed.

Lemma on_callUser_target this sock uid t_id t_start data r out em :
  MessagesService.on_callUser this sock uid t_id t_start data = Some (r, out) →
  em ∈ out → own_or_registered this sock em.1.
Proof.
  unfold MessagesService.on_callUser.
  destruct (get_prop data "userToCall") as [to|]; simpl; [|done].
  destruct (UserConnections.get this to) as [tc|] eqn:Hto.
  - apply get_Some_num in Hto as (t & -> & Ht).
    destruct (get_prop data "callType"); simpl; [|done].
    destruct (get_prop data "from"); simpl; [|done].
    case_templates.
    destruct (get_prop data "signalData"); simpl; [|done].
    intros [= <- <-] ->%list_elem_of_singleton. right. by exists t, tc.
  - destruct (template to); simpl; [|done].
    intros [= <- <-] ->%list_elem_of_singleton. by left.
Qed.

Lemma on_answerCall_target this sock uid data r out em :
  MessagesService.on_answerCall this uid data = Some (r, out) →
  em ∈ out → own_or_registered this sock em.1.
Proof.
  unfold MessagesService.on_answerCall.
  destruct (get_prop data "to") as [to|]; simpl; [|done].
  destruct (UserConnections.get this to) as [tc|] eqn:Hto.
  - apply get_Some_num in Hto as (t & -> & Ht).
    destruct (get_prop data "signal"); simpl; [|done].
    intros [= <- <-] ->%list_elem_of_singleton. right. by exists t, tc.
  - intros [= <- <-] H. by apply elem_of_nil in H.
Qed.

Lemma on_callCandidate_target this sock uid data r out em :
  MessagesService.on_callCandidate this uid data = Some (r, out) →
  em ∈ out → own_or_registered this sock em.1.
Proof.
  unfold MessagesService.on_callCandidate.
  destruct (get_prop data "to") as [to|]; simpl; [|done].
  destruct (UserConnections.get this to) as [tc|] eqn:Hto.
  - apply get_Some_num in Hto as (t & -> & Ht).
    destruct (get_prop data "candidate"); simpl; [|done].
    intros [= <- <-] ->%list_elem_of_singleton. right. by exists t, tc.
  - intros [= <- <-] H. by apply elem_of_nil in H.
Qed.

Lemma on_endCall_target this sock uid data r out em :
  MessagesService.on_endCall this uid data = Some (r, out) →
  em ∈ out → own_or_registered this sock em.1.
Proof.
  unfold MessagesService.on_endCall.
  destruct (get_prop data "callId") as [callId|]; simpl; [|done].
  destruct (truthy callId).
  - intros [= Hr]. apply (f_equal snd) in Hr. simpl in Hr. subst out.
    apply endCall_target.
  - destruct (get_prop data "to") as [to|]; simpl; [|done].
    destruct (UserConnections.get this to) as [tc|] eqn:Hto.
    + apply get_Some_num in Hto as (t & -> & Ht).
      destruct (get_prop data "reason"); simpl; [|done].
      intros [= <- <-] ->%list_elem_of_singleton. right. by exists t, tc.
    + intros [= <- <-] H. by apply elem_of_nil in H.
Qed.
End Targets.

(** Handling an input keeps every connected socket connected, but for the
    socket whose [disconnect] is being handled. *)
Lemma step_keeps_clients (s : Server) (i : Input) (s' : Server) (out : list Emission)
    (sk : SocketId) :
  step s i = Some (s', out) →
  is_Some (clients s !! sk) →
  is_Some (clients s' !! sk) ∨ i = Recv sk Disconnect.
Proof.
  intros Hstep Hsk. destruct i as [uid now|sock ev]; simpl in Hstep.
  - injection Hstep as <- <-. left. simpl. apply lookup_insert_is_Some.
    destruct (decide (nextSocket s = sk)); [by left | by right].
  - destruct (clients s !! sock) as [uid|] eqn:Hsock.
    2:{ injection Hstep as <- <-. by left. }
    assert (∀ r : option (gmap Z UserConnection * list Emission),
              with_users s <$> r = Some (s', out) → clients s' = clients s) as Hsame.
    { intros [[r o]|]; simpl; [|done]. by intros [= <- <-]. }
    destruct ev; simpl in Hstep;
      try (left; rewrite (Hsame _ Hstep); exact Hsk).
    + injection Hstep as <- <-. by left.
    + injection Hstep as <- <-. simpl.
      destruct (decide (sock = sk)) as [->|Hne]; [by right|].
      left. by rewrite lookup_delete_ne.
    + injection Hstep as <- <-. by left.
Qed.

(** X9. In every reachable state, whatever the input, every event the
    server emits goes to a socket that is connected when the input arrives,
    and that is still connected once the input is handled unless it is the
    very socket whose [disconnect] is being handled (an event can go there,
    when the departing principal holds a session with itself). *)
Theorem emissions_reach_connected_sockets (s : Server) (i : Input) (s' : Server)
    (out : list Emission) (sk : SocketId) (e : Emit) :
  reachable s →
  step s i = Some (s', out) →
  (sk, e) ∈ out →
  is_Some (clients s !! sk)
  ∧ (is_Some (clients s' !! sk) ∨ i = Recv sk Disconnect).
Proof.
  intros Hreach Hstep Hin.
  assert (is_Some (clients s !! sk)) as Hbefore;
    [|split; [exact Hbefore | by eapply step_keeps_clients]].
  destruct (reachable_inv s Hreach) as [Hok _].
  assert (∀ sock uid, clients s !! sock = Some uid →
            own_or_registered (connectedUsers s) sock sk → is_Some (clients s !! sk)) as Hconn.
  { intros sock uid Hsock [->|(Q & c & HQ & ->)]; [by eexists|].
    destruct (Hok Q c HQ) as [Hc _]. by eexists. }
  destruct i as [uid now|sock ev]; simpl in Hstep.
  - injection Hstep as <- <-. by apply elem_of_nil in Hin.
  - destruct (clients s !! sock) as [uid|] eqn:Hsock.
    2:{ injection Hstep as <- <-. by apply elem_of_nil in Hin. }
    destruct ev; simpl in Hstep.
    + injection Hstep as <- <-. unfold broadcast in Hin.
      apply list_elem_of_fmap in Hin as (sk' & [= -> _] & Hin).
      apply elem_of_elements, elem_of_difference in Hin as [Hin _].
      by apply elem_of_dom in Hin.
    + destruct (MessagesService.on_callUser _ _ _ _ _ _) as [[r o]|] eqn:E;
        simpl in Hstep; [|done].
      injection Hstep as <- <-. apply (Hconn sock uid Hsock).
      apply (on_callUser_target _ _ _ _ _ _ _ _ (sk, e) E Hin).
    + destruct (MessagesService.on_answerCall _ _ _) as [[r o]|] eqn:E;
        simpl in Hstep; [|done].
      injection Hstep as <- <-. apply (Hconn sock uid Hsock).
      apply (on_answerCall_target _ sock _ _ _ _ (sk, e) E Hin).
    + destruct (MessagesService.on_callCandidate _ _ _) as [[r o]|] eqn:E;
        simpl in Hstep; [|done].
      injection Hstep as <- <-. apply (Hconn sock uid Hsock).
      apply (on_callCandidate_target _ sock _ _ _ _ (sk, e) E Hin).
    + destruct (MessagesService.on_endCall _ _ _) as [[r o]|] eqn:E;
        simpl in Hstep; [|done].
      injection Hstep as <- <-. apply (Hconn sock uid Hsock).
      apply (on_endCall_target _ sock _ _ _ _ (sk, e) E Hin).
    + injection Hstep as <- <-. apply (Hconn sock uid Hsock).
      apply (remove_target _ uid (sk, e) sock Hin).
    + injection Hstep as <- <-. apply (Hconn sock uid Hsock).
      apply (remove_target _ uid (sk, e) sock Hin).
Qed.

Lemma emissions_reach_connected_sockets_witness :
  is_Some (clients one_calling_two !! 1)
  ∧ (is_Some (clients (after_disconnect one_calling_two 0 1) !! 1)
     ∨ Recv 0 Disconnect = Recv 1 Disconnect).
Proof.
  apply (emissions_reach_connected_sockets one_calling_two (Recv 0 Disconnect)
           (after_disconnect one_calling_two 0 1)
           [(1, callEnded 1 (VStr "REMOTE_ENDED"))] 1 (callEnded 1 (VStr "REMOTE_ENDED"))).
  - apply one_calling_two_reachable.
  - vm_compute; reflexivity.
  - apply list_elem_of_here.
Defined.

(** The exception does occur: principal 1 calls itself and disconnects; the
    [callEnded] of the cascade is emitted on the departing socket. *)
Lemma self_call_disconnect_emits_on_departing_socket :
  ∃ s',
    run init [Connect 1 0;
              Recv 0 (RecvCallUser 1000 1000 (VObj [("userToCall", VNum 1)]));
              Recv 0 Disconnect]
    = Some (s', [(0, callIncoming "1-1-1000" VUndef VUndef VUndef);
                 (0, callEnded 1 (VStr "REMOTE_ENDED"))])
    ∧ clients s' !! 0 = None.
Proof. eexists. split; vm_compute; reflexivity. Qed.

(** X6. In every reachable state, an [answerCall] or [callCandidate] from a
    socket of [B] addressed to the registered principal [A] leaves the state
    as it is and emits exactly one event, on a connected socket
    authenticated as [A]: [callAnswered] (or [callCandidate]) carrying the
    payload's [signal] (or [candidate]) unchanged and [from = B]. *)
Theorem relay_reaches_addressee (s : Server) (sock : SocketId) (A B : Z)
    (ca : UserConnection) (data : JsVal) :
  reachable s →
  clients s !! sock = Some B →
  connectedUsers s !! A = Some ca →
  get_prop data "to" = Some (VNum A) →
  clients s !! socket ca = Some A
  ∧ (∀ sig, get_prop data "signal" = Some sig →
       step s (Recv sock (RecvAnswerCall data))
       = Some (s, [(socket ca, callAnswered sig B)]))
  ∧ (∀ cand, get_prop data "candidate" = Some cand →
       step s (Recv sock (RecvCallCandidate data))
       = Some (s, [(socket ca, callCandidate cand B)])).
Proof.
  intros Hreach Hsock HA Hto.
  destruct (reachable_inv s Hreach) as [Hok _]. destruct (Hok A ca HA) as [Hca _].
  split; [done|]. split.
  - intros sig Hsig. simpl. rewrite Hsock. simpl.
    unfold MessagesService.on_answerCall. rewrite Hto. simpl. rewrite HA, Hsig. simpl.
    by rewrite with_users_same.
  - intros cand Hcand. simpl. rewrite Hsock. simpl.
    unfold MessagesService.on_callCandidate. rewrite Hto. simpl. rewrite HA, Hcand. simpl.
    by rewrite with_users_same.
Qed.

Lemma relay_reaches_addressee_witness :
  clients three_online !! 0 = Some 1%Z
  ∧ step three_online (Recv 1 (RecvAnswerCall answer_A))
    = Some (three_online, [(0, callAnswered (VStr "sdp2") 2)]).
Proof.
  destruct (relay_reaches_addressee three_online 1 1 2
              {| socket := 0; timestamp := 0; calls := [] |} answer_A)
    as (Hsock & Hanswer & _).
  - apply three_online_reachable.
  - vm_compute; reflexivity.
  - vm_compute; reflexivity.
  - vm_compute; reflexivity.
  - split; [exact Hsock|]. apply Hanswer. vm_compute; reflexivity.
Defined.

(** ** Call initiation in detail *)

(** X4. When caller and callee are both registered and the payload's
    [from] field is a value the debug line can interpolate, [callUser]
    stores the
    session under the caller, keyed by the minted id and holding the callee,
    the payload's call type and the second clock reading; the caller's other
    sessions, its socket and every other principal's entry are untouched;
    the callee's socket gets exactly one [callIncoming] with the payload's
    [signalData] unchanged.  The call set grows by one unless the id is
    already a key (same callee, same millisecond), in which case the older
    session is overwritten. *)
Theorem callUser_stores_session (this : gmap Z UserConnection) (sock : SocketId)
    (uid target t_id t_start : Z) (fields : list (string * JsVal))
    (cu ct : UserConnection) :
  this !! uid = Some cu →
  this !! target = Some ct →
  field "userToCall" fields = VNum target →
  uncoercible (field "from" fields) = false →
  let callId := callId_of uid target t_id in
  let session := {| otherParticipantId := VNum target;
                    type := field "callType" fields;
                    startTime := t_start |} in
  ∃ this' cu',
    MessagesService.on_callUser this sock uid t_id t_start (VObj fields)
    = Some (this', [(socket ct,
                     callIncoming callId (field "signalData" fields) (field "from" fields)
                       (field "callType" fields))])
    ∧ this' !! uid = Some cu'
    ∧ socket cu' = socket cu ∧ timestamp cu' = timestamp cu
    ∧ JsMap.get callId (calls cu') = Some session
    ∧ (∀ k, k ≠ callId → JsMap.get k (calls cu') = JsMap.get k (calls cu))
    ∧ (∀ Q, Q ≠ uid → this' !! Q = this !! Q)
    ∧ length (calls cu')
      = match JsMap.get callId (calls cu) with
        | Some _ => length (calls cu)
        | None => S (length (calls cu))
        end.
Proof.
  intros Hu Ht Hto Hfrom callId session.
  exists (<[uid := with_calls cu (JsMap.set callId session (calls cu))]> this),
         (with_calls cu (JsMap.set callId session (calls cu))).
  split; [|split; [|split; [|split; [|split; [|split; [|split]]]]]].
  - rewrite (callUser_reachable this sock uid t_id t_start fields target ct Hto Ht Hfrom).
    do 2 f_equal. unfold UserConnections.addCall. by rewrite Hu.
  - apply lookup_insert_eq.
  - done.
  - done.
  - simpl. apply JsMap_get_set_eq.
  - intros k Hk. simpl. by apply JsMap_get_set_ne.
  - intros Q HQ. by rewrite lookup_insert_ne.
  - simpl. apply JsMap_set_length.
Qed.

Lemma callUser_stores_session_witness :
  ∃ this' cu',
    MessagesService.on_callUser registry_AB 10 1 1000 1001 call_B
    = Some (this', [(20, callIncoming "1-2-1000" (VStr "sdp1") (VNum 1) (VStr "video"))])
    ∧ this' !! 1%Z = Some cu'
    ∧ length (calls cu') = 1.
Proof.
  destruct (callUser_stores_session registry_AB 10 1 2 1000 1001
              [("userToCall", VNum 2); ("signalData", VStr "sdp1"); ("from", VNum 1);
               ("callType", VStr "video")]
              {| socket := 10; timestamp := 0; calls := [] |} conn_B)
    as (this' & cu' & Hrun & Hcu & _ & _ & _ & _ & _ & Hlen).
  - vm_compute; reflexivity.
  - vm_compute; reflexivity.
  - reflexivity.
  - reflexivity.
  - exists this', cu'. split; [exact Hrun|]. split; [exact Hcu | exact Hlen].
Defined.



(** ** Ending a call without its id *)

(** X7. An [endCall] whose payload has no truthy [callId] only relays: the
    registry is unchanged, so a session A holds with B stays stored, and B
    is sent [callEnded] with the payload's [reason], or [NORMAL] when that is
    falsy.  The session is therefore ended a second time when A is removed,
    and B is then sent [callEnded] with reason [REMOTE_ENDED] as well. *)
Theorem fallback_end_keeps_session (this : gmap Z UserConnection) (A B : Z)
    (ca cb : UserConnection) (k : string) (cd : CallData) (data callId reason : JsVal) :
  this !! A = Some ca →
  this !! B = Some cb →
  JsMap.get k (calls ca) = Some cd →
  otherParticipantId cd = VNum B →
  get_prop data "callId" = Some callId →
  truthy callId = false →
  get_prop data "to" = Some (VNum B) →
  get_prop data "reason" = Some reason →
  MessagesService.on_endCall this A data
  = Some (this, [(socket cb, callEnded A (if truthy reason then reason else VStr "NORMAL"))])
  ∧ (socket cb, callEnded A (VStr "REMOTE_ENDED")) ∈ snd (UserConnections.remove this A).
Proof.
  intros HA HB Hk Hcd HcallId Hfalsy Hto Hreason. split.
  - unfold MessagesService.on_endCall. rewrite HcallId. cbn [mbind option_bind].
    rewrite Hfalsy, Hto. cbn [mbind option_bind]. simpl. by rewrite HB, Hreason.
  - destruct (remove_registry this A ca HA) as [_ ->].
    eapply cascade_notifies; eauto.
    + by eapply JsMap_get_Some_key.
    + unfold notified. rewrite Hcd. simpl. rewrite HB. apply list_elem_of_here.
Qed.

Lemma fallback_end_keeps_session_witness :
  MessagesService.on_endCall registry_ABC 1 (VObj [("to", VNum 2)])
  = Some (registry_ABC, [(20, callEnded 1 (VStr "NORMAL"))])
  ∧ (20, callEnded 1 (VStr "REMOTE_ENDED")) ∈ snd (UserConnections.remove registry_ABC 1).
Proof.
  apply (fallback_end_keeps_session registry_ABC 1 2 conn_A conn_B "1-2-1000"
           {| otherParticipantId := VNum 2; type := VStr "video"; startTime := 1000 |}
           (VObj [("to", VNum 2)]) VUndef VUndef); vm_compute; reflexivity.
Defined.

(** ** Payloads that make a listener throw *)

Lemma get_prop_nullish (data : JsVal) (k : string) :
  nullish data = true → get_prop data k = None.
Proof. by destruct data. Qed.

Lemma get_prop_defined (data : JsVal) (k : string) :
  nullish data = false → ∃ v, get_prop data k = Some v.
Proof. destruct data; simpl; try done; by eexists. Qed.

(** X8. Which payloads make a call listener throw (a [TypeError],
    uncaught).  [answerCall], [callCandidate] and [endCall] of the messages
    service throw exactly when the payload is [null] or [undefined].
    [callUser] of the messages service throws exactly when the payload is
    [null] or [undefined], or its [userToCall] cannot be interpolated, or
    the callee is registered and its [from] cannot be interpolated.
    [answerCall] and [iceCandidate] of the users service throw exactly when
    the payload is [null] or [undefined] or its [targetUserId] cannot be
    interpolated.  [callUser] of the users service throws in those cases
    too, and in no other as long as the payload itself, which its debug line
    passes to [console.log], has no [toString] property of its own.  Every
    other payload, of any shape, is handled normally. *)
Theorem listeners_throw_exactly_when (this : gmap Z UserConnection)
    (online : gmap Z SocketId) (sock : SocketId) (uid t_id t_start : Z) (data : JsVal) :
  (MessagesService.on_callUser this sock uid t_id t_start data = None ↔
     nullish data = true
     ∨ ∃ target, get_prop data "userToCall" = Some target
         ∧ (uncoercible target = true
            ∨ (is_Some (UserConnections.get this target)
               ∧ ∃ from, get_prop data "from" = Some from ∧ uncoercible from = true)))
  ∧ (MessagesService.on_answerCall this uid data = None ↔ nullish data = true)
  ∧ (MessagesService.on_callCandidate this uid data = None ↔ nullish data = true)
  ∧ (MessagesService.on_endCall this uid data = None ↔ nullish data = true)
  ∧ (∀ h, h ∈ [UsersService.on_answerCall; UsersService.on_iceCandidate] →
      (h online uid data = None ↔
         nullish data = true
         ∨ ∃ target, get_prop data "targetUserId" = Some target
                     ∧ uncoercible target = true))
  ∧ (nullish data = true
     ∨ (∃ target, get_prop data "targetUserId" = Some target
                  ∧ uncoercible target = true) →
     UsersService.on_callUser online uid data = None)
  ∧ (uncoercible data = false →
     UsersService.on_callUser online uid data = None →
     nullish data = true
     ∨ ∃ target, get_prop data "targetUserId" = Some target
                 ∧ uncoercible target = true).
Proof.
  destruct (nullish data) eqn:Hn.
  - assert (∀ k, get_prop data k = None) as Hnone
      by (intros k; by apply get_prop_nullish).
    unfold MessagesService.on_callUser, MessagesService.on_answerCall,
      MessagesService.on_callCandidate, MessagesService.on_endCall.
    rewrite !Hnone. simpl.
    split; [split; [by left | done]|]. do 3 (split; [done|]).
    split; [|split; [|by left]].
    + intros h Hh. split; [by left|]. intros _.
      repeat (apply elem_of_cons in Hh as [->|Hh]);
        [| |by apply elem_of_nil in Hh];
        unfold UsersService.on_answerCall, UsersService.on_iceCandidate;
        rewrite ?Hnone; reflexivity.
    + intros _. unfold UsersService.on_callUser.
      rewrite (Hnone "targetUserId"). reflexivity.
  - assert (∀ A (x : option A), is_Some x → (x = None ↔ false = true)) as Hsome.
    { intros A x [y ->]. split; discriminate. }
    pose proof (get_prop_defined data) as Hp.
    destruct (Hp "userToCall" Hn) as [v1 H1], (Hp "callType" Hn) as [v2 H2],
      (Hp "signalData" Hn) as [v3 H3], (Hp "from" Hn) as [v4 H4],
      (Hp "to" Hn) as [v5 H5], (Hp "signal" Hn) as [v6 H6],
      (Hp "candidate" Hn) as [v7 H7], (Hp "callId" Hn) as [v8 H8],
      (Hp "reason" Hn) as [v9 H9], (Hp "targetUserId" Hn) as [v10 H10],
      (Hp "offer" Hn) as [v11 H11], (Hp "answer" Hn) as [v12 H12].
    split; [|split; [|split; [|split; [|split; [|split]]]]].
    + unfold MessagesService.on_callUser. rewrite H1, H2, H3, H4. simpl.
      destruct (UserConnections.get this v1) as [tc|] eqn:Hget.
      * pose proof Hget as Hnum. apply get_Some_num in Hnum as (t & -> & _).
        rewrite template_num. simpl.
        destruct (uncoercible v4) eqn:Hco.
        -- apply template_None in Hco as Htpl. rewrite Htpl. simpl.
           split; [|done]. intros _. right. exists (VNum t). split; [done|].
           right. split; [by eexists|]. by exists v4.
        -- rewrite (template_coercible _ Hco). simpl. split; [done|].
           intros [?|(target & [= <-] & [?|(_ & from & [= <-] & Hfrom)])];
             try done; congruence.
      * destruct (uncoercible v1) eqn:Hco.
        -- apply template_None in Hco as Htpl. rewrite Htpl. simpl.
           split; [|done]. intros _. right. exists v1. split; [done|]. by left.
        -- rewrite (template_coercible _ Hco). simpl. split; [done|].
           intros [?|(target & [= <-] & [?|([tc Htc] & _)])]; try done;
             congruence.
    + unfold MessagesService.on_answerCall. rewrite H5, H6. simpl.
      apply Hsome. destruct (UserConnections.get this v5); by eexists.
    + unfold MessagesService.on_callCandidate. rewrite H5, H7. simpl.
      apply Hsome. destruct (UserConnections.get this v5); by eexists.
    + unfold MessagesService.on_endCall. rewrite H8, H5, H9. simpl.
      apply Hsome. destruct (truthy v8); [by eexists|].
      destruct (UserConnections.get this v5); by eexists.
    + intros h Hh.
      assert (∀ x : option (gmap Z SocketId * list (SocketId * UsersService.Emit)),
                (uncoercible v10 = false → is_Some x) →
                (template v10 ;; x) = None ↔
                false = true
                ∨ ∃ target, Some v10 = Some target ∧ uncoercible target = true) as Hu.
      { intros x Hx. destruct (uncoercible v10) eqn:Hco.
        - apply template_None in Hco as Htpl. rewrite Htpl. simpl.
          split; [|done]. intros _. right. by exists v10.
        - rewrite (template_coercible _ Hco). simpl. destruct (Hx eq_refl) as [y ->].
          split; [done|]. intros [?|(target & [= <-] & ?)]; [done|congruence]. }
      repeat (apply elem_of_cons in Hh as [->|Hh]);
        [| |by apply elem_of_nil in Hh];
        unfold UsersService.on_answerCall, UsersService.on_iceCandidate;
        rewrite H10, ?H12, ?H7; simpl; apply Hu; intros _;
        destruct (UsersService.get online v10); by eexists.
    + intros [?|(target & Htarget & Hco)]; [done|].
      unfold UsersService.on_callUser. rewrite Htarget. simpl.
      apply template_None in Hco. by rewrite Hco.
    + intros Hdata Hthrow. right. exists v10. split; [done|].
      destruct (uncoercible v10) eqn:Hco; [done|]. exfalso.
      unfold UsersService.on_callUser in Hthrow. rewrite H10, H11 in Hthrow.
      simpl in Hthrow. rewrite (template_coercible _ Hco) in Hthrow.
      simpl in Hthrow. rewrite (log_with_arg_safe _ _ Hdata) in Hthrow.
      by destruct (UsersService.get online v10).
Qed.

Lemma listeners_throw_exactly_when_witness :
  MessagesService.on_endCall registry_AB 1 VNull = None
  ∧ UsersService.on_answerCall online_A 1 users_answer_unrenderable = None.
Proof.
  destruct (listeners_throw_exactly_when registry_AB online_A 0 1 0 0 VNull)
    as (_ & _ & _ & [_ Hend] & _).
  destruct (listeners_throw_exactly_when registry_AB online_A 0 1 0 0
              users_answer_unrenderable) as (_ & _ & _ & _ & Husers & _).
  split; [apply Hend; reflexivity|].
  apply (Husers UsersService.on_answerCall).
  - apply list_elem_of_here.
  - right. exists unrenderable. split; reflexivity.
Defined.

(** * Properties of the users service relay *)
Section UsersServerFacts.
Implicit Types (s : UsersServer.Server) (online : gmap Z SocketId).

Lemma users_get_Some_num online v sk :
  UsersService.get online v = Some sk → ∃ t, v = VNum t ∧ online !! t = Some sk.
Proof. destruct v; simpl; try done. intros H. by eexists. Qed.

(** What a call listener returns: the map as it was, and at most one event,
    from the sender, on the socket stored under the target. *)
Lemma users_relay_result online uid data r out
    (h : gmap Z SocketId → Z → JsVal → option (gmap Z SocketId * list (SocketId * UsersService.Emit))) :
  h = UsersService.on_callUser ∨ h = UsersService.on_answerCall
  ∨ h = UsersService.on_iceCandidate →
  h online uid data = Some (r, out) →
  r = online
  ∧ ∀ sk e, (sk, e) ∈ out →
      out = [(sk, e)] ∧ UsersServer.from_of e = uid
      ∧ ∃ target, get_prop data "targetUserId" = Some (VNum target)
                  ∧ online !! target = Some sk.
Proof.
  intros Hh.
  assert (∀ (mk : Z → JsVal → UsersService.Emit) (field0 : string),
            (∀ f x, UsersServer.from_of (mk f x) = f) →
            (to ← get_prop data "targetUserId";
             template to ;;
             match UsersService.get online to with
             | Some targetSocket =>
                 x ← get_prop data field0; Some (online, [(targetSocket, mk uid x)])
             | None => Some (online, [])
             end) = Some (r, out) →
            r = online
            ∧ ∀ sk e, (sk, e) ∈ out →
                out = [(sk, e)] ∧ UsersServer.from_of e = uid
                ∧ ∃ target, get_prop data "targetUserId" = Some (VNum target)
                            ∧ online !! target = Some sk) as Hgen.
  { intros mk field0 Hfrom.
    destruct (get_prop data "targetUserId") as [to|]; simpl; [|done].
    destruct (template to); simpl; [|done].
    destruct (UsersService.get online to) as [tsk|] eqn:Hto.
    - apply users_get_Some_num in Hto as (t & -> & Ht).
      destruct (get_prop data field0); simpl; [|done].
      intros [= <- <-]. split; [done|].
      intros sk e Hin. apply list_elem_of_singleton in Hin. injection Hin as -> ->.
      split; [done|]. split; [apply Hfrom|]. by exists t.
    - intros [= <- <-]. split; [done|]. intros sk e H. by apply elem_of_nil in H. }
  destruct Hh as [-> | [-> | ->]].
  - intros H. apply (Hgen UsersService.incomingCall "offer"); [done|].
    revert H. unfold UsersService.on_callUser.
    destruct (get_prop data "targetUserId") as [to|]; simpl; [|done].
    destruct (template to); simpl; [|done].
    by destruct (log_with_arg_throws _ _).
  - apply (Hgen UsersService.callAnswered "answer"). done.
  - apply (Hgen UsersService.iceCandidate "candidate"). done.
Qed.

Lemma users_step_inv s i s' out :
  UsersServer.inv s → UsersServer.step s i = Some (s', out) → UsersServer.inv s'.
Proof.
  intros [Hok Hfresh]. destruct i as [uid|sock ev]; simpl.
  - intros [= <- <-]. split; simpl.
    + intros P sk. unfold UsersService.on_connection.
      destruct (decide (uid = P)) as [<-|Hne].
      * rewrite lookup_insert_eq. intros [= <-]. apply lookup_insert_eq.
      * rewrite lookup_insert_ne by done. intros HP.
        rewrite lookup_insert_ne; [by apply Hok|].
        intros Heq. subst sk.
        assert (UsersServer.nextSocket s < UsersServer.nextSocket s); [|lia].
        apply Hfresh. exists P. by apply Hok.
    + intros sk [u Hsk].
      destruct (decide (UsersServer.nextSocket s = sk)) as [<-|Hne]; [lia|].
      rewrite lookup_insert_ne in Hsk by done.
      assert (sk < UsersServer.nextSocket s) by (apply Hfresh; by eexists). lia.
  - destruct (UsersServer.clients s !! sock) as [uid|] eqn:Hsock; [|by intros [= <- <-]].
    assert (∀ h, h = UsersService.on_callUser ∨ h = UsersService.on_answerCall
                 ∨ h = UsersService.on_iceCandidate →
                 ∀ data, UsersServer.with_online s <$> h (UsersServer.onlineUsers s) uid data
                         = Some (s', out) → UsersServer.inv s') as Hrelay.
    { intros h Hh data.
      destruct (h (UsersServer.onlineUsers s) uid data) as [[r o]|] eqn:E; simpl; [|done].
      destruct (users_relay_result _ _ _ _ _ h Hh E) as [-> _].
      intros [= <- <-]. by split. }
    destruct ev; simpl.
    + apply Hrelay. by left.
    + apply Hrelay. right. by left.
    + apply Hrelay. right. by right.
    + intros [= <- <-]. split; simpl.
      * intros P sk HP. unfold UsersService.on_disconnect in HP.
        apply lookup_delete_Some in HP as [HneP HP].
        rewrite lookup_delete_ne; [by apply Hok|].
        intros <-. apply Hok in HP. congruence.
      * intros sk [u Hsk]. apply lookup_delete_Some in Hsk as [_ Hsk].
        apply Hfresh. by eexists.
Qed.

Lemma users_reachable_inv s : UsersServer.reachable s → UsersServer.inv s.
Proof.
  induction 1 as [|s i s' out _ IH Hstep].
  - split; simpl.
    + intros P sk HP. by rewrite lookup_empty in HP.
    + intros sk [u Hsk]. by rewrite lookup_empty in Hsk.
  - by eapply users_step_inv.
Qed.

Lemma users_reconnected_reachable : UsersServer.reachable UsersServer.reconnected.
Proof.
  apply (UsersServer.reachable_step
           {| UsersServer.clients := <[0 := 1%Z]> (<[1 := 1%Z]> ∅);
              UsersServer.onlineUsers := <[1%Z := 1]> ∅;
              UsersServer.nextSocket := 2 |}
           (UsersServer.Connect 2) _ []); [|vm_compute; reflexivity].
  apply (UsersServer.reachable_step
           {| UsersServer.clients := <[0 := 1%Z]> ∅;
              UsersServer.onlineUsers := <[1%Z := 0]> ∅;
              UsersServer.nextSocket := 1 |}
           (UsersServer.Connect 1) _ []); [|vm_compute; reflexivity].
  apply (UsersServer.reachable_step UsersServer.init (UsersServer.Connect 1) _ []);
    [|vm_compute; reflexivity].
  apply UsersServer.reachable_init.
Defined.
End UsersServerFacts.

(** X11. In every reachable state of the users service, a [callUser],
    [answerCall] or [iceCandidate] event leaves the state unchanged and
    emits at most one event; that event goes to a connected socket
    authenticated as the principal the payload names in [targetUserId], and
    its [from] is the sender's authenticated id. *)
Theorem users_relay_reaches_addressee (s s' : UsersServer.Server) (sock : SocketId)
    (uid : Z) (ev : UsersServer.ClientEvent) (out : list (SocketId * UsersService.Emit)) :
  UsersServer.reachable s →
  UsersServer.clients s !! sock = Some uid →
  ev ≠ UsersServer.Disconnect →
  UsersServer.step s (UsersServer.Recv sock ev) = Some (s', out) →
  s' = s
  ∧ ∀ sk e, (sk, e) ∈ out →
      out = [(sk, e)]
      ∧ UsersServer.from_of e = uid
      ∧ ∃ target, UsersServer.event_target ev = Some (VNum target)
                  ∧ UsersServer.clients s !! sk = Some target.
Proof.
  intros Hreach Hsock Hev. destruct (users_reachable_inv s Hreach) as [Hok _].
  simpl. rewrite Hsock.
  assert (∀ h, h = UsersService.on_callUser ∨ h = UsersService.on_answerCall
               ∨ h = UsersService.on_iceCandidate →
               ∀ data, UsersServer.with_online s <$> h (UsersServer.onlineUsers s) uid data
                       = Some (s', out) →
               s' = s
               ∧ ∀ sk e, (sk, e) ∈ out →
                   out = [(sk, e)] ∧ UsersServer.from_of e = uid
                   ∧ ∃ target, get_prop data "targetUserId" = Some (VNum target)
                               ∧ UsersServer.clients s !! sk = Some target) as Hrelay.
  { intros h Hh data.
    destruct (h (UsersServer.onlineUsers s) uid data) as [[r o]|] eqn:E; simpl; [|done].
    destruct (users_relay_result _ _ _ _ _ h Hh E) as [-> Hout].
    intros [= <- <-]. split; [by destruct s|].
    intros sk e Hin. destruct (Hout sk e Hin) as (Hone & Hfrom & target & Htarget & Hsk).
    split; [done|]. split; [done|]. exists target. split; [done|]. by apply Hok. }
  destruct ev; simpl; [| | |done].
  - apply Hrelay. by left.
  - apply Hrelay. right. by left.
  - apply Hrelay. right. by right.
Qed.

Lemma users_relay_reaches_addressee_witness :
  UsersServer.step UsersServer.reconnected
    (UsersServer.Recv 2 (UsersServer.RecvCallUser
                           (VObj [("targetUserId", VNum 1); ("offer", VStr "sdp1")])))
  = Some (UsersServer.reconnected, [(1, UsersService.incomingCall 2 (VStr "sdp1"))])
  ∧ UsersServer.clients UsersServer.reconnected !! 1 = Some 1%Z.
Proof.
  assert (UsersServer.step UsersServer.reconnected
            (UsersServer.Recv 2 (UsersServer.RecvCallUser
                                   (VObj [("targetUserId", VNum 1); ("offer", VStr "sdp1")])))
          = Some (UsersServer.reconnected, [(1, UsersService.incomingCall 2 (VStr "sdp1"))]))
    as Hstep by (vm_compute; reflexivity).
  split; [exact Hstep|].
  destruct (users_relay_reaches_addressee UsersServer.reconnected UsersServer.reconnected 2 2
              (UsersServer.RecvCallUser
                 (VObj [("targetUserId", VNum 1); ("offer", VStr "sdp1")]))
              [(1, UsersService.incomingCall 2 (VStr "sdp1"))]) as [_ Hout].
  - apply users_reconnected_reachable.
  - vm_compute; reflexivity.
  - discriminate.
  - exact Hstep.
  - destruct (Hout 1 (UsersService.incomingCall 2 (VStr "sdp1")))
      as (_ & _ & target & Htarget & Hsk); [apply list_elem_of_here|].
    injection Htarget as <-. exact Hsk.
Defined.

(** X12. The users service keeps one socket per principal and deletes by
    principal id: in every reachable state, when a socket of [P] other than
    the one stored in [onlineUsers] disconnects, nothing is emitted, the
    stored socket stays connected as [P], but [P] is no longer online, so
    calls, answers and candidates addressed to [P] are dropped. *)
Theorem users_superseded_disconnect (s : UsersServer.Server) (old sk : SocketId) (P : Z) :
  UsersServer.reachable s →
  UsersServer.clients s !! old = Some P →
  UsersServer.onlineUsers s !! P = Some sk →
  sk ≠ old →
  ∃ s',
    UsersServer.step s (UsersServer.Recv old UsersServer.Disconnect) = Some (s', [])
    ∧ UsersServer.clients s' !! sk = Some P
    ∧ UsersServer.onlineUsers s' !! P = None
    ∧ ∀ uid data,
        get_prop data "targetUserId" = Some (VNum P) →
        UsersService.on_callUser (UsersServer.onlineUsers s') uid data
        = Some (UsersServer.onlineUsers s', [])
        ∧ UsersService.on_answerCall (UsersServer.onlineUsers s') uid data
          = Some (UsersServer.onlineUsers s', [])
        ∧ UsersService.on_iceCandidate (UsersServer.onlineUsers s') uid data
          = Some (UsersServer.onlineUsers s', []).
Proof.
  intros Hreach Hold HP Hne. destruct (users_reachable_inv s Hreach) as [Hok _].
  eexists. split; [|split; [|split]].
  - simpl. by rewrite Hold.
  - simpl. rewrite lookup_delete_ne by done. by apply Hok.
  - simpl. apply lookup_delete_eq.
  - intros uid data Hto. simpl.
    unfold UsersService.on_callUser, UsersService.on_answerCall,
      UsersService.on_iceCandidate, UsersService.on_disconnect.
    rewrite Hto. simpl. rewrite callUser_log_numeric.
    by rewrite lookup_delete_eq.
Qed.

Lemma users_superseded_disconnect_witness :
  ∃ s',
    UsersServer.step UsersServer.reconnected (UsersServer.Recv 0 UsersServer.Disconnect)
    = Some (s', [])
    ∧ UsersServer.clients s' !! 1 = Some 1%Z
    ∧ UsersServer.onlineUsers s' !! 1%Z = None.
Proof.
  destruct (users_superseded_disconnect UsersServer.reconnected 0 1 1)
    as (s' & Hstep & Hconn & Hoff & _).
  - apply users_reconnected_reachable.
  - vm_compute; reflexivity.
  - vm_compute; reflexivity.
  - lia.
  - exists s'. split; [exact Hstep|]. split; [exact Hconn | exact Hoff].
Defined.

(** * Properties of the reaction routes *)
Module ReactionFacts.
Import Reactions.

Section Helpers.
Implicit Types (rs : list Reaction) (r : Reaction) (e : string) (u : Z).

Lemma includes_spec u (l : list Z) : includes u l = true ↔ u ∈ l.
Proof.
  unfold includes. rewrite existsb_exists, list_elem_of_In. split.
  - intros (x & Hx & ->%Z.eqb_eq). done.
  - intros Hu. exists u. split; [done | apply Z.eqb_refl].
Qed.

Lemma includes_false u (l : list Z) : includes u l = false ↔ u ∉ l.
Proof.
  rewrite <- includes_spec. by destruct (includes u l).
Qed.

Lemma find_Some rs e r : find e rs = Some r → emoji r = e ∧ r ∈ rs.
Proof.
  unfold find. intros H. apply find_some in H as [Hin He].
  apply String.eqb_eq in He. split; [done|]. by apply list_elem_of_In.
Qed.

Lemma find_None rs e : find e rs = None ↔ e ∉ emoji <$> rs.
Proof.
  unfold find. induction rs as [|r rs IH]; csimpl.
  - split; [intros _; apply not_elem_of_nil | done].
  - destruct (String.eqb (emoji r) e) eqn:E.
    + apply String.eqb_eq in E. split; [done|]. intros H. exfalso. apply H.
      rewrite E. apply list_elem_of_here.
    + apply String.eqb_neq in E. rewrite IH, not_elem_of_cons.
      split; [by split | by intros [_ ?]].
Qed.

Lemma find_app rs l e :
  find e (rs ++ l) = match find e rs with Some r => Some r | None => find e l end.
Proof.
  unfold find. induction rs as [|r rs IH]; simpl; [done|].
  by destruct (String.eqb (emoji r) e).
Qed.

Lemma find_update_found rs e (f : Reaction → Reaction) :
  (∀ r, emoji (f r) = emoji r) →
  find e (update_found e f rs) = f <$> find e rs.
Proof.
  intros Hf. unfold find. induction rs as [|r rs IH]; simpl; [done|].
  destruct (String.eqb (emoji r) e) eqn:E; simpl.
  - by rewrite Hf, E.
  - by rewrite E.
Qed.

Lemma find_update_found_ne rs e e' (f : Reaction → Reaction) :
  (∀ r, emoji (f r) = emoji r) → e ≠ e' →
  find e' (update_found e f rs) = find e' rs.
Proof.
  intros Hf Hne. unfold find. induction rs as [|r rs IH]; simpl; [done|].
  destruct (String.eqb (emoji r) e) eqn:E; simpl.
  - rewrite Hf. apply String.eqb_eq in E.
    destruct (String.eqb (emoji r) e') eqn:E'; [|done].
    apply String.eqb_eq in E'. congruence.
  - by rewrite IH.
Qed.


Lemma update_found_compose rs e (f g : Reaction → Reaction) :
  (∀ r, emoji (f r) = emoji r) →
  update_found e g (update_found e f rs) = update_found e (g ∘ f) rs.
Proof.
  intros Hf. induction rs as [|r rs IH]; simpl; [done|].
  destruct (String.eqb (emoji r) e) eqn:E; simpl.
  - by rewrite Hf, E.
  - by rewrite E, IH.
Qed.

Lemma update_found_same rs e (f : Reaction → Reaction) :
  (∀ r, find e rs = Some r → f r = r) → update_found e f rs = rs.
Proof.
  unfold find. induction rs as [|r rs IH]; simpl; [done|].
  destruct (String.eqb (emoji r) e) eqn:E; intros Hf.
  - by rewrite Hf.
  - by rewrite IH.
Qed.


(** The reactions with another emoji are the same before and after. *)
Lemma others_update_found rs e (f : Reaction → Reaction) :
  (∀ r, emoji (f r) = emoji r) →
  List.filter (λ r, negb (String.eqb (emoji r) e)) (update_found e f rs)
  = List.filter (λ r, negb (String.eqb (emoji r) e)) rs.
Proof.
  intros Hf. induction rs as [|r rs IH]; simpl; [done|].
  destruct (String.eqb (emoji r) e) eqn:E; simpl.
  - by rewrite Hf, E.
  - by rewrite E, IH.
Qed.

Lemma others_all rs e :
  e ∉ emoji <$> rs → List.filter (λ r, negb (String.eqb (emoji r) e)) rs = rs.
Proof.
  induction rs as [|r rs IH]; csimpl; [done|].
  rewrite not_elem_of_cons. intros [Hne Hrs].
  destruct (String.eqb (emoji r) e) eqn:E.
  - apply String.eqb_eq in E. congruence.
  - simpl. by rewrite IH.
Qed.

Lemma find_others rs e e' :
  find e' (List.filter (λ r, negb (String.eqb (emoji r) e)) rs)
  = if String.eqb e e' then None else find e' rs.
Proof.
  unfold find. induction rs as [|r rs IH]; simpl; [by destruct (String.eqb e e')|].
  destruct (String.eqb (emoji r) e) eqn:E; simpl.
  - rewrite IH. apply String.eqb_eq in E.
    destruct (String.eqb e e') eqn:E'; [done|].
    destruct (String.eqb (emoji r) e') eqn:E''; [|done].
    apply String.eqb_eq in E''. apply String.eqb_neq in E'. congruence.
  - rewrite IH. destruct (String.eqb (emoji r) e') eqn:E''; [|done].
    destruct (String.eqb e e') eqn:E'; [|done].
    apply String.eqb_eq in E', E''. apply String.eqb_neq in E. congruence.
Qed.


Lemma drop_users (l : list Z) u x :
  x ∈ List.filter (λ y, negb (Z.eqb y u)) l ↔ x ∈ l ∧ x ≠ u.
Proof.
  rewrite !list_elem_of_In, filter_In, negb_true_iff, Z.eqb_neq. done.
Qed.

Lemma drop_users_absent (l : list Z) u :
  u ∉ l → List.filter (λ y, negb (Z.eqb y u)) l = l.
Proof.
  induction l as [|x l IH]; simpl; [done|].
  rewrite not_elem_of_cons. intros [Hne Hl].
  destruct (Z.eqb x u) eqn:E; simpl.
  - apply Z.eqb_eq in E. congruence.
  - by rewrite IH.
Qed.


End Helpers.




(** X15. [remove_reaction] answers 400 exactly when the user is not
    recorded as having reacted with the emoji; when it succeeds, the user is
    no longer recorded for that emoji. *)
Theorem remove_reaction_unrecords (rs : list Reaction) (e : string) (u : Z) :
  (remove_reaction rs e u = None ↔ ¬ reacted rs e u)
  ∧ ∀ rs', remove_reaction rs e u = Some rs' → ¬ reacted rs' e u.
Proof.
  unfold remove_reaction, reacted. split.
  - destruct (find e rs) as [r|] eqn:Hfind.
    + destruct (includes u (users r)) eqn:Hinc.
      * split.
        -- by destruct (count (drop u r) <=? 0)%Z.
        -- intros H. exfalso. apply H. exists r. split; [done|].
           by apply includes_spec.
      * split; [|done]. intros _ (r' & [= <-] & Hu).
        apply includes_false in Hinc. done.
    + split; [|done]. by intros _ (r' & Hr' & _).
  - intros rs'. destruct (find e rs) as [r|] eqn:Hfind; [|done].
    destruct (includes u (users r)) eqn:Hinc; [|done].
    destruct (count (drop u r) <=? 0)%Z.
    + intros [= <-] (r' & Hr' & _).
      rewrite find_others, String.eqb_refl in Hr'. done.
    + intros [= <-] (r' & Hr' & Hu).
      rewrite find_update_found, Hfind in Hr' by done. injection Hr' as <-.
      simpl in Hu. apply drop_users in Hu as [_ Hu]. done.
Qed.

Lemma remove_reaction_unrecords_witness :
  remove_reaction thumbs "heart" 1 = None
  ∧ ¬ reacted [{| emoji := "+1"; count := 2; users := [1; 2]%Z |}] "heart" 3.
Proof.
  destruct (remove_reaction_unrecords thumbs "heart" 1) as [[_ Hnone] _].
  destruct (remove_reaction_unrecords thumbs "heart" 3) as [_ Hsome].
  split.
  - apply Hnone. intros (r & Hr & Hu). vm_compute in Hr. injection Hr as <-.
    simpl in Hu. apply list_elem_of_singleton in Hu. discriminate Hu.
  - apply Hsome. vm_compute; reflexivity.
Defined.

Lemma coherent_found (rs : list Reaction) (e : string) (r : Reaction) :
  coherent rs → find e rs = Some r →
  count r = Z.of_nat (length (users r)) ∧ NoDup (users r) ∧ users r ≠ [].
Proof.
  intros [_ Hall] Hfind. apply find_Some in Hfind as [_ Hin].
  by apply (proj1 (Forall_forall _ _) Hall r).
Qed.



(** X17. On a coherent array, a successful [remove_reaction] changes only
    the record of that user for that emoji: every other (emoji, user) pair
    is recorded afterwards exactly when it was before. *)
Theorem remove_reaction_frame (rs rs' : list Reaction) (e e' : string) (u u' : Z) :
  coherent rs →
  remove_reaction rs e u = Some rs' →
  (e', u') ≠ (e, u) →
  reacted rs' e' u' ↔ reacted rs e' u'.
Proof.
  intros Hco. unfold remove_reaction, reacted.
  destruct (find e rs) as [r|] eqn:Hfind; [|done].
  destruct (includes u (users r)) eqn:Hinc; [|done].
  apply includes_spec in Hinc.
  destruct (coherent_found rs e r Hco Hfind) as (Hc & Hn & _).
  destruct (decide (e = e')) as [<-|Hne].
  - intros Hrm Hpair. assert (u' ≠ u) as Hu' by congruence. clear Hpair.
    destruct (count (drop u r) <=? 0)%Z eqn:Hle.
    + injection Hrm as <-. rewrite find_others, String.eqb_refl, Hfind.
      split; [by intros (r' & Hr' & _)|].
      intros (r' & [= <-] & Hin). exfalso.
      apply Z.leb_le in Hle. simpl in Hle.
      destruct (users r) as [|x [|y l]] eqn:Hus.
      * by apply elem_of_nil in Hinc.
      * apply list_elem_of_singleton in Hinc, Hin. congruence.
      * simpl in Hc. lia.
    + injection Hrm as <-. rewrite find_update_found, Hfind by done. simpl. split.
      * intros (r' & [= <-] & Hin). simpl in Hin. apply drop_users in Hin as [Hin _].
        by exists r.
      * intros (r' & [= <-] & Hin). eexists. split; [done|]. simpl.
        by apply drop_users.
  - intros Hrm _.
    assert (find e' rs' = find e' rs) as ->; [|done].
    destruct (count (drop u r) <=? 0)%Z; injection Hrm as <-.
    + rewrite find_others.
      destruct (String.eqb e e') eqn:E; [by apply String.eqb_eq in E|].
      by apply find_update_found_ne.
    + by apply find_update_found_ne.
Qed.

Lemma remove_reaction_frame_witness :
  reacted [{| emoji := "+1"; count := 1; users := [2]%Z |};
           {| emoji := "heart"; count := 1; users := [3]%Z |}] "+1" 2.
Proof.
  apply (remove_reaction_frame thumbs _ "+1" "+1" 1 2).
  - split.
    + simpl. apply NoDup_cons. split; [|apply NoDup_singleton].
      intros Hin. apply list_elem_of_singleton in Hin. discriminate Hin.
    + repeat constructor; simpl; try discriminate.
      * intros Hin. apply list_elem_of_singleton in Hin. discriminate Hin.
      * intros Hin. by apply elem_of_nil in Hin.
      * intros Hin. by apply elem_of_nil in Hin.
  - vm_compute; reflexivity.
  - discriminate.
  - exists {| emoji := "+1"; count := 2; users := [1; 2]%Z |}. split; [reflexivity|].
    simpl. apply list_elem_of_further, list_elem_of_here.
Defined.

(** X18. On a coherent array, removing a reaction just added by a user who
    had not reacted with that emoji succeeds and restores the array exactly
    as it was. *)
Theorem add_then_remove_restores (rs : list Reaction) (e : string) (u : Z) :
  coherent rs →
  ¬ reacted rs e u →
  remove_reaction (add_reaction rs e u) e u = Some rs.
Proof.
  intros Hco Hnot. unfold add_reaction.
  destruct (find e rs) as [r|] eqn:Hfind.
  - destruct (coherent_found rs e r Hco Hfind) as (Hc & Hn & Hne).
    destruct (includes u (users r)) eqn:Hinc.
    { exfalso. apply Hnot. exists r. split; [done|]. by apply includes_spec. }
    apply includes_false in Hinc.
    unfold remove_reaction. rewrite find_update_found, Hfind by done. simpl.
    assert (includes u (users r ++ [u]) = true) as ->.
    { apply includes_spec, elem_of_app. right. apply list_elem_of_here. }
    assert ((count r + 1 - 1 <=? 0)%Z = false) as ->.
    { apply Z.leb_gt. destruct (users r); [done|]. simpl in Hc. lia. }
    rewrite update_found_compose by done. f_equal.
    apply update_found_same. intros r' Hr'. rewrite Hfind in Hr'. injection Hr' as <-.
    unfold drop, bump. simpl. destruct r as [em c us]. simpl in *. f_equal.
    + lia.
    + rewrite List.filter_app. simpl. rewrite Z.eqb_refl. simpl.
      rewrite app_nil_r. by apply drop_users_absent.
  - set (new := {| emoji := e; count := 1; users := [u] |}).
    assert (find e (rs ++ [new]) = Some new) as Hnew.
    { rewrite find_app, Hfind. unfold find. simpl. by rewrite String.eqb_refl. }
    unfold remove_reaction. rewrite Hnew.
    assert (includes u (users new) = true) as ->
      by (apply includes_spec, list_elem_of_here).
    assert ((count (drop u new) <=? 0)%Z = true) as -> by done.
    f_equal. rewrite others_update_found by done.
    apply find_None in Hfind.
    rewrite List.filter_app, others_all by done. simpl.
    rewrite String.eqb_refl. simpl. apply app_nil_r.
Qed.

Lemma add_then_remove_restores_witness :
  remove_reaction (add_reaction [] "+1" 7) "+1" 7 = Some [].
Proof.
  apply (add_then_remove_restores [] "+1" 7).
  - split; constructor.
  - intros (r & Hr & _). discriminate Hr.
Defined.
End ReactionFacts.

(** * Properties of the bearer-token check *)
Module AuthFacts.
Import Auth.

Lemma split_space_cons (s : string) : ∃ w ws, split_space s = w :: ws.
Proof.
  induction s as [|c s (w & ws & IH)]; simpl; [by eexists _, _|].
  destruct (Ascii.eqb c " "); [by eexists _, _|]. rewrite IH. by eexists _, _.
Qed.

Lemma split_space_word (a : string) : has_space a = false → split_space a = [a].
Proof.
  induction a as [|c a IH]; simpl; [done|].
  destruct (Ascii.eqb c " "); simpl; [done|]. intros Ha. by rewrite IH.
Qed.

Lemma split_space_app (a b : string) :
  has_space a = false → split_space (a +:+ " " +:+ b) = a :: split_space b.
Proof.
  induction a as [|c a IH]; simpl; [done|].
  destruct (Ascii.eqb c " "); simpl; [done|]. intros Ha. by rewrite IH.
Qed.

Lemma split_space_words (s : string) :
  Forall (λ w, has_space w = false) (split_space s).
Proof.
  induction s as [|c s IH]; simpl; [by repeat constructor|].
  destruct (Ascii.eqb c " ") eqn:E; [by constructor|].
  destruct (split_space s) as [|w ws]; [by repeat constructor; simpl; rewrite E|].
  apply Forall_cons in IH as [Hw Hws]. constructor; [|done]. simpl. by rewrite E.
Qed.

Lemma header_token_split (a b : string) :
  has_space a = false →
  header_token (Some (a +:+ " " +:+ b)) = split_space b !! 0.
Proof.
  intros Ha. unfold header_token.
  rewrite split_space_app by done. by destruct a.
Qed.

(** X19. The token taken from an [Authorization] header is its second
    space-separated word, whatever the first word is: for [scheme] and [tok]
    without spaces, both [scheme tok] and [scheme tok rest] yield [tok].
    A token never contains a space, and a non-empty header without any
    space yields no token. *)
Theorem header_token_is_second_word (scheme tok rest h t : string) :
  has_space scheme = false →
  has_space tok = false →
  header_token (Some (scheme +:+ " " +:+ tok)) = Some tok
  ∧ header_token (Some (scheme +:+ " " +:+ tok +:+ " " +:+ rest)) = Some tok
  ∧ (header_token (Some h) = Some t → has_space t = false)
  ∧ (has_space h = false → h ≠ "" → header_token (Some h) = None).
Proof.
  intros Hscheme Htok. split; [|split; [|split]].
  - rewrite header_token_split by done. by rewrite split_space_word.
  - rewrite header_token_split by done. by rewrite split_space_app.
  - unfold header_token. destruct h as [|c h']; [by intros [= <-]|].
    intros Hlook. pose proof (split_space_words (String c h')) as Hall.
    by apply (proj1 (Forall_lookup _ _) Hall 1 t).
  - intros Hh Hne. unfold header_token. destruct h as [|c h']; [done|].
    by rewrite split_space_word.
Qed.

Lemma header_token_is_second_word_witness :
  header_token (Some "Bearer secret") = Some "secret"
  ∧ header_token (Some "Basic secret trailing") = Some "secret".
Proof.
  destruct (header_token_is_second_word "Bearer" "secret" "" "" "") as (H1 & _);
    [reflexivity | reflexivity |].
  destruct (header_token_is_second_word "Basic" "secret" "trailing" "" "") as (_ & H2 & _);
    [reflexivity | reflexivity |].
  split; [exact H1 | exact H2].
Defined.

(** X20. [authenticateToken] answers 401 when the header is absent, has no
    space, or has an empty second word, and otherwise returns the verdict of
    [verify] on the second word: 403 when it is rejected, [next] with the
    decoded user when it is accepted.  The first word is never looked at, so
    two headers that differ only in it get the same answer. *)
Theorem authenticateToken_outcome (verify : string → option JsVal)
    (scheme scheme' tok rest h : string) :
  authenticateToken verify None = sendStatus 401
  ∧ (has_space h = false → authenticateToken verify (Some h) = sendStatus 401)
  ∧ (has_space scheme = false →
     authenticateToken verify (Some (scheme +:+ " " +:+ " " +:+ rest)) = sendStatus 401
     ∧ (has_space scheme' = false →
        authenticateToken verify (Some (scheme +:+ " " +:+ rest))
        = authenticateToken verify (Some (scheme' +:+ " " +:+ rest)))
     ∧ (has_space tok = false → tok ≠ "" →
        authenticateToken verify (Some (scheme +:+ " " +:+ tok))
        = match verify tok with
          | None => sendStatus 403
          | Some user => next user
          end)).
Proof.
  split; [done|]. split; [|intros Hscheme; split; [|split]].
  - intros Hh. unfold authenticateToken, header_token.
    destruct h as [|c h']; [done|]. by rewrite split_space_word.
  - unfold authenticateToken. rewrite header_token_split by done. done.
  - intros Hscheme'. unfold authenticateToken. by rewrite !header_token_split.
  - intros Htok Hne. unfold authenticateToken.
    rewrite header_token_split, split_space_word by done. simpl.
    by destruct tok.
Qed.

Lemma authenticateToken_outcome_witness :
  authenticateToken verify_secret (Some "Bearer secret") = next (VObj [("id", VNum 1)])
  ∧ authenticateToken verify_secret (Some "Bearer secret")
    = authenticateToken verify_secret (Some "Basic secret")
  ∧ authenticateToken verify_secret (Some "Bearer") = sendStatus 401.
Proof.
  destruct (authenticateToken_outcome verify_secret "Bearer" "Basic" "secret" "secret"
              "Bearer") as (_ & Hnospace & Hrest).
  destruct (Hrest eq_refl) as (_ & Hsame & Hverdict).
  split; [|split].
  - assert ("secret" ≠ "") as Hne by discriminate.
    exact (Hverdict eq_refl Hne).
  - exact (Hsame eq_refl).
  - exact (Hnospace eq_refl).
Defined.
End AuthFacts.

(** * Properties of the profile update *)
Module ProfileFacts.
Import Profile.

Lemma js_or_truthy (a b : JsVal) : truthy b = true → truthy (js_or a b) = true.
Proof. unfold js_or. by destruct (truthy a) eqn:E. Qed.

Lemma js_or_idem (a b : JsVal) : js_or a (js_or a b) = js_or a b.
Proof. unfold js_or. by destruct (truthy a). Qed.

(** X21. A profile update never touches [id] or [password]; a [username],
    [avatar] or [status] that is set (truthy) stays set whatever the body,
    because a falsy or missing field keeps the stored value; [bio] alone
    takes any value the body gives it, [null] and the empty string
    included, and keeps the stored one only when the body has no [bio];
    sending the same body again changes nothing, and an empty object
    changes nothing at all. *)
Theorem profile_update_keeps_set_fields (userData userData' : User) (body : JsVal) :
  (update userData body = Some userData' →
   id userData' = id userData
   ∧ password userData' = password userData
   ∧ (truthy (username userData) = true → truthy (username userData') = true)
   ∧ (truthy (avatar userData) = true → truthy (avatar userData') = true)
   ∧ (truthy (status userData) = true → truthy (status userData') = true)
   ∧ (∀ b, get_prop body "bio" = Some b →
           bio userData' = match b with VUndef => bio userData | _ => b end)
   ∧ update userData' body = Some userData')
  ∧ update userData (VObj []) = Some userData.
Proof.
  split; [|by destruct userData].
  unfold update.
  destruct (get_prop body "username") as [n|]; simpl; [|done].
  destruct (get_prop body "bio") as [b|]; simpl; [|done].
  destruct (get_prop body "avatar") as [a|]; simpl; [|done].
  destruct (get_prop body "status") as [st|]; simpl; [|done].
  intros [= <-]. simpl.
  split; [done|]. split; [done|].
  split; [apply js_or_truthy|]. split; [apply js_or_truthy|].
  split; [apply js_or_truthy|]. split.
  - by intros b' [= <-].
  - rewrite !js_or_idem. do 2 f_equal. by destruct b.
Qed.

Lemma profile_update_keeps_set_fields_witness :
  ∃ userData',
    update alice (VObj [("username", VStr ""); ("bio", VStr ""); ("status", VNull)])
    = Some userData'
    ∧ truthy (username userData') = true
    ∧ truthy (status userData') = true
    ∧ bio userData' = VStr "".
Proof.
  set (body := VObj [("username", VStr ""); ("bio", VStr ""); ("status", VNull)]).
  set (userData' := {| id := 1; username := VStr "alice"; password := VStr "hash";
                        bio := VStr ""; avatar := VNull; status := VStr "online" |}).
  destruct (profile_update_keeps_set_fields alice userData' body) as [Hupd _].
  destruct Hupd as (_ & _ & Hname & _ & Hstatus & Hbio & _); [reflexivity|].
  exists userData'. split; [reflexivity|].
  split; [by apply Hname|]. split; [by apply Hstatus|].
  apply (Hbio (VStr "")). reflexivity.
Defined.
End ProfileFacts.
